(** * Consumer metrics of go_kafka_client ([metrics.go])

    A shallow embedding of [consumerMetrics]: the registry of named metrics,
    the snapshot function [Stats], the shutdown call [Close] and the
    reporting goroutine started by [newConsumerMetrics].

    Go pointers are locations in a heap of metric objects, so that two
    handles to one metric alias; code that reads or writes shared state is
    written in a small state-and-failure monad; the reporting goroutine, the
    ticker and the producers are interleaved by a labelled step function. *)

From Stdlib Require Import ZArith Floats Uint63 Lia.
From stdpp Require Import base option list gmap strings.

Open Scope string_scope.
Open Scope list_scope.
Open Scope Z_scope.

(** ** Machine numbers *)

(** Go's [int64]: arithmetic wraps around modulo 2^64. *)
Definition wrap64 (z : Z) : Z := (z + 2 ^ 63) mod 2 ^ 64 - 2 ^ 63.

(** Go's conversion [float64(x)] of an [int64]: rounding to nearest even,
    which is what the primitive conversion of a 63-bit magnitude does. The one
    [int64] whose magnitude does not fit 63 bits is [-2^63], a power of two. *)
Definition float64_of_magnitude (z : Z) : float :=
  if z <? 2 ^ 63 then PrimFloat.of_uint63 (Uint63.of_Z z)
  else PrimFloat.mul (PrimFloat.of_uint63 (Uint63.of_Z (2 ^ 62))) (PrimFloat.of_uint63 2).

Definition float64 (z : Z) : float :=
  if z <? 0 then PrimFloat.opp (float64_of_magnitude (- z))
  else float64_of_magnitude z.

(** ** Metric objects *)

(** What the accessor methods of a histogram return. The statistics algorithms
    (reservoir sampling, decayed rates) belong to the metrics library; the
    consumer only reads their results. *)
Record HistogramReadings := mkHistogram {
  hCount : Z; hMax : Z; hMin : Z; hMean : float;
  hStdDev : float; hSum : Z; hVariance : float
}.

Record MeterReadings := mkMeter {
  mCount : Z; mRate1 : float; mRate5 : float; mRate15 : float; mRateMean : float
}.

(** The dynamic type and contents of a value stored behind [interface{}].
    A timer is a histogram of durations together with a meter. *)
Inductive metric :=
| StandardCounter (count : Z)
| StandardGauge (value : Z)
| StandardHistogram (h : HistogramReadings)
| StandardMeter (m : MeterReadings)
| StandardTimer (h : HistogramReadings) (m : MeterReadings)
| OtherValue (ty : string).

Inductive kind := KCounter | KGauge | KHistogram | KMeter | KTimer | KOther.

Definition kind_of (m : metric) : kind :=
  match m with
  | StandardCounter _ => KCounter
  | StandardGauge _ => KGauge
  | StandardHistogram _ => KHistogram
  | StandardMeter _ => KMeter
  | StandardTimer _ _ => KTimer
  | OtherValue _ => KOther
  end.

Definition kind_eqb (a b : kind) : bool :=
  match a, b with
  | KCounter, KCounter | KGauge, KGauge | KHistogram, KHistogram
  | KMeter, KMeter | KTimer, KTimer | KOther, KOther => true
  | _, _ => false
  end.

(** ** The state of the process *)

Definition loc := nat.
Definition payload := list Byte.byte.
Definition error := string.

(** [time.Ticker]: whether the runtime timer is still armed, and the channel
    [C], which buffers at most one tick. *)
Record Ticker := mkTicker { active : bool; C : bool }.

(** Where the reporting goroutine stands in its loop body. *)
Inductive reporter_pc :=
| NotStarted
| Waiting
| Ticked
| Written (buffer : payload)
| Flushed (buffer : payload).

Record world := mkWorld {
  heap : list metric;
  registry : gmap string loc;
  ticker : option Ticker;
  reporter : reporter_pc;
  emitted : list payload;
  crashed : option error
}.

Definition set_heap (h : list metric) (w : world) : world :=
  mkWorld h (registry w) (ticker w) (reporter w) (emitted w) (crashed w).
Definition set_registry (r : gmap string loc) (w : world) : world :=
  mkWorld (heap w) r (ticker w) (reporter w) (emitted w) (crashed w).
Definition set_ticker (t : option Ticker) (w : world) : world :=
  mkWorld (heap w) (registry w) t (reporter w) (emitted w) (crashed w).
Definition set_reporter (p : reporter_pc) (w : world) : world :=
  mkWorld (heap w) (registry w) (ticker w) p (emitted w) (crashed w).
Definition set_emitted (e : list payload) (w : world) : world :=
  mkWorld (heap w) (registry w) (ticker w) (reporter w) e (crashed w).
Definition set_crashed (c : option error) (w : world) : world :=
  mkWorld (heap w) (registry w) (ticker w) (reporter w) (emitted w) c.

(** The zero state: nothing allocated, no ticker, no goroutine. *)
Definition boot : world := mkWorld [] ∅ None NotStarted [] None.

(** ** A monad for code that reads and writes the world and may panic *)

Definition M (A : Type) : Type := world -> option (A * world).

Definition ret {A} (a : A) : M A := fun w => Some (a, w).
Definition bind {A B} (m : M A) (k : A -> M B) : M B :=
  fun w => match m w with
           | Some (a, w') => k a w'
           | None => None
           end.
Definition panic {A} : M A := fun _ => None.
(** A goroutine that cannot proceed (it waits, or it is elsewhere in its
    code) offers no next state either. *)
Definition blocked {A} : M A := fun _ => None.
Definition gets {A} (f : world -> A) : M A := fun w => Some (f w, w).
Definition modify (f : world -> world) : M unit := fun w => Some (tt, f w).

Notation "'let!' x ':=' c1 'in' c2" := (bind c1 (fun x => c2))
  (at level 10, x name, c1 at level 100, c2 at level 200).
Notation "'exec!' c1 'in' c2" := (bind c1 (fun _ => c2))
  (at level 10, c1 at level 100, c2 at level 200).

(** Dereference a pointer; a location outside the heap is a nil pointer. *)
Definition load (l : loc) : M metric :=
  fun w => match heap w !! l with
           | Some m => Some (m, w)
           | None => None
           end.

(** Overwrite the object a pointer refers to. *)
Definition store (l : loc) (m : metric) : M unit :=
  fun w => match heap w !! l with
           | Some _ => Some (tt, set_heap (<[l := m]> (heap w)) w)
           | None => None
           end.

(** Any in-place write through a handle. *)
Definition mutate (l : loc) (f : metric -> metric) : M unit :=
  let! m := load l in store l (f m).

Definition alloc (m : metric) : M loc :=
  fun w => Some (length (heap w), set_heap (heap w ++ [m]) w).

(** ** The metrics library, as far as the consumer uses it *)

(** Accessor and update methods, one module per interface. A method called
    on a pointer to an object of another type does not type-check in Go;
    here it panics. *)
Module Counter.

(** Modelled from the spec: a Counter is a signed integer total; [Count]
    reads it. *)
Definition Count (c : loc) : M Z :=
  let! m := load c in
  match m with StandardCounter n => ret n | _ => panic end.

(** Modelled from the spec: an increment adds its delta to the total, no
    update being lost; the total is an [int64]. *)
Definition Inc (c : loc) (i : Z) : M unit :=
  let! n := Count c in store c (StandardCounter (wrap64 (n + i))).

(** Modelled from the spec: a decrement subtracts its delta. *)
Definition Dec (c : loc) (i : Z) : M unit :=
  let! n := Count c in store c (StandardCounter (wrap64 (n - i))).

End Counter.

Module Gauge.

(** Modelled from the spec: a Gauge holds one value; [Value] reads it. *)
Definition Value (g : loc) : M Z :=
  let! m := load g in
  match m with StandardGauge v => ret v | _ => panic end.

(** Modelled from the spec: an update overwrites the value, nothing is
    accumulated. *)
Definition Update (g : loc) (v : Z) : M unit :=
  exec! Value g in store g (StandardGauge v).

End Gauge.

Module Histogram.

(** Modelled from the spec: a Histogram exposes count, min, max, mean,
    standard deviation, sum and variance; the methods below read them. *)
Definition readings (l : loc) : M HistogramReadings :=
  let! m := load l in
  match m with StandardHistogram h => ret h | _ => panic end.

Definition Count l : M Z := let! h := readings l in ret (hCount h).
Definition Max l : M Z := let! h := readings l in ret (hMax h).
Definition Min l : M Z := let! h := readings l in ret (hMin h).
Definition Mean l : M float := let! h := readings l in ret (hMean h).
Definition StdDev l : M float := let! h := readings l in ret (hStdDev h).
Definition Sum l : M Z := let! h := readings l in ret (hSum h).
Definition Variance l : M float := let! h := readings l in ret (hVariance h).

End Histogram.

Module Meter.

(** Modelled from the spec: a Meter exposes a count, three moving-average
    rates and a mean rate; the methods below read them. *)
Definition readings (l : loc) : M MeterReadings :=
  let! m := load l in
  match m with StandardMeter r => ret r | _ => panic end.

Definition Count l : M Z := let! r := readings l in ret (mCount r).
Definition Rate1 l : M float := let! r := readings l in ret (mRate1 r).
Definition Rate5 l : M float := let! r := readings l in ret (mRate5 r).
Definition Rate15 l : M float := let! r := readings l in ret (mRate15 r).
Definition RateMean l : M float := let! r := readings l in ret (mRateMean r).

End Meter.

Module Timer.

(** Modelled from the spec: a Timer is a Histogram of durations and a Meter
    of occurrences; its distribution readings are the histogram's, its rates
    the meter's. *)
Definition histogram (l : loc) : M HistogramReadings :=
  let! m := load l in
  match m with StandardTimer h _ => ret h | _ => panic end.

Definition meter (l : loc) : M MeterReadings :=
  let! m := load l in
  match m with StandardTimer _ r => ret r | _ => panic end.

Definition Count l : M Z := let! h := histogram l in ret (hCount h).
Definition Max l : M Z := let! h := histogram l in ret (hMax h).
Definition Min l : M Z := let! h := histogram l in ret (hMin h).
Definition Mean l : M float := let! h := histogram l in ret (hMean h).
Definition StdDev l : M float := let! h := histogram l in ret (hStdDev h).
Definition Sum l : M Z := let! h := histogram l in ret (hSum h).
Definition Variance l : M float := let! h := histogram l in ret (hVariance h).
Definition Rate1 l : M float := let! r := meter l in ret (mRate1 r).
Definition Rate5 l : M float := let! r := meter l in ret (mRate5 r).
Definition Rate15 l : M float := let! r := meter l in ret (mRate15 r).
Definition RateMean l : M float := let! r := meter l in ret (mRateMean r).

End Timer.

Module metrics.

(** New metrics start from zero. *)
Definition NewCounter : metric := StandardCounter 0.
Definition NewGauge : metric := StandardGauge 0.
Definition emptyHistogram : HistogramReadings := mkHistogram 0 0 0 0%float 0%float 0 0%float.
Definition emptyMeter : MeterReadings := mkMeter 0 0%float 0%float 0%float 0%float.
Definition NewTimer : metric := StandardTimer emptyHistogram emptyMeter.

(** [metrics.NewRegistry()]: the consumer's registry starts empty. *)
Definition NewRegistry : M unit := modify (set_registry ∅).

(** Modelled from the spec: [register(name, factory)] of the Registry, which
    the source reaches through the library's [NewRegistered...] constructors.
    It returns the existing metric if [name] is already present; otherwise it
    constructs the metric, stores it and returns it. A name already bound to
    a metric of another kind is rejected. *)
Definition register (name : string) (factory : metric) : M loc :=
  let! r := gets registry in
  match r !! name with
  | Some l =>
      let! m := load l in
      if kind_eqb (kind_of m) (kind_of factory) then ret l else panic
  | None =>
      let! l := alloc factory in
      exec! modify (fun w => set_registry (<[name := l]> (registry w)) w) in
      ret l
  end.

Definition NewRegisteredCounter (name : string) : M loc := register name NewCounter.
Definition NewRegisteredGauge (name : string) : M loc := register name NewGauge.
Definition NewRegisteredTimer (name : string) : M loc := register name NewTimer.

(** The visits of [Each], over a given enumeration of the registry. *)
Fixpoint visitAll {A} (visit : string -> loc -> A -> M A)
    (entries : list (string * loc)) (a : A) : M A :=
  match entries with
  | [] => ret a
  | (name, l) :: rest => let! a' := visit name l a in visitAll visit rest a'
  end.

(** Modelled from the spec: [each(visit)] invokes [visit(name, metric)] once
    for every registered metric, in an order of the registry's choosing. The
    state a Go closure captures and updates is threaded as [a]. *)
Definition Each {A} (visit : string -> loc -> A -> M A) (a : A) : M A :=
  let! r := gets registry in visitAll visit (map_to_list r) a.

(** Modelled from the spec: [unregisterAll()] empties the registry; the
    metric objects themselves are left alone. *)
Definition UnregisterAll : M unit := modify (set_registry ∅).

End metrics.

(** ** [consumerMetrics.Stats] *)

Abbreviation StatsMap := (gmap string (gmap string float)).

(** [metricsMap[name][key] = v]: the inner map must exist, assigning into a
    nil map panics. *)
Definition setStat (name key : string) (v : float) (metricsMap : StatsMap) : M StatsMap :=
  match metricsMap !! name with
  | Some inner => ret (<[name := <[key := v]> inner]> metricsMap)
  | None => panic
  end.

(** The type switch on a registered value. *)
Definition typeOf (l : loc) : M kind := let! m := load l in ret (kind_of m).

(** The closure passed to [registry.Each]. *)
Definition statsVisit (name : string) (entry : loc) (metricsMap : StatsMap) : M StatsMap :=
  let metricsMap := <[name := ∅]> metricsMap in
  let! k := typeOf entry in
  match k with
  | KCounter =>
      let! count := Counter.Count entry in
      setStat name "count" (float64 count) metricsMap
  | KGauge =>
      let! value := Gauge.Value entry in
      setStat name "value" (float64 value) metricsMap
  | KHistogram =>
      let! count := Histogram.Count entry in
      let! metricsMap := setStat name "count" (float64 count) metricsMap in
      let! max := Histogram.Max entry in
      let! metricsMap := setStat name "max" (float64 max) metricsMap in
      let! min := Histogram.Min entry in
      let! metricsMap := setStat name "min" (float64 min) metricsMap in
      let! mean := Histogram.Mean entry in
      let! metricsMap := setStat name "mean" mean metricsMap in
      let! stdDev := Histogram.StdDev entry in
      let! metricsMap := setStat name "stdDev" stdDev metricsMap in
      let! sum := Histogram.Sum entry in
      let! metricsMap := setStat name "sum" (float64 sum) metricsMap in
      let! variance := Histogram.Variance entry in
      setStat name "variance" variance metricsMap
  | KMeter =>
      let! count := Meter.Count entry in
      let! metricsMap := setStat name "count" (float64 count) metricsMap in
      let! rate1 := Meter.Rate1 entry in
      let! metricsMap := setStat name "rate1" rate1 metricsMap in
      let! rate5 := Meter.Rate5 entry in
      let! metricsMap := setStat name "rate5" rate5 metricsMap in
      let! rate15 := Meter.Rate15 entry in
      let! metricsMap := setStat name "rate15" rate15 metricsMap in
      let! rateMean := Meter.RateMean entry in
      setStat name "rateMean" rateMean metricsMap
  | KTimer =>
      let! count := Timer.Count entry in
      let! metricsMap := setStat name "count" (float64 count) metricsMap in
      let! max := Timer.Max entry in
      let! metricsMap := setStat name "max" (float64 max) metricsMap in
      let! min := Timer.Min entry in
      let! metricsMap := setStat name "min" (float64 min) metricsMap in
      let! mean := Timer.Mean entry in
      let! metricsMap := setStat name "mean" mean metricsMap in
      let! rate1 := Timer.Rate1 entry in
      let! metricsMap := setStat name "rate1" rate1 metricsMap in
      let! rate5 := Timer.Rate5 entry in
      let! metricsMap := setStat name "rate5" rate5 metricsMap in
      let! rate15 := Timer.Rate15 entry in
      let! metricsMap := setStat name "rate15" rate15 metricsMap in
      let! rateMean := Timer.RateMean entry in
      let! metricsMap := setStat name "rateMean" rateMean metricsMap in
      let! stdDev := Timer.StdDev entry in
      let! metricsMap := setStat name "stdDev" stdDev metricsMap in
      let! sum := Timer.Sum entry in
      let! metricsMap := setStat name "sum" (float64 sum) metricsMap in
      let! variance := Timer.Variance entry in
      setStat name "variance" variance metricsMap
  | KOther => ret metricsMap
  end.

Definition Stats : M StatsMap := metrics.Each statsVisit ∅.

(** ** [consumerMetrics.Close] and the constructor *)

(** [ticker.Stop()]: disarms the timer; the channel is neither closed nor
    drained. Calling it through a nil ticker panics. *)
Definition Stop : M unit :=
  let! t := gets ticker in
  match t with
  | Some t => modify (set_ticker (Some (mkTicker false (C t))))
  | None => panic
  end.

(** [ticker.Stop()] followed by [registry.UnregisterAll()]. *)
Definition Close : M unit :=
  exec! Stop in metrics.UnregisterAll.

(** The struct. Its [registry] and [ticker] fields point to the one registry
    and the one ticker of the [world]; the other fields are metric handles. *)
Record consumerMetrics := mkConsumerMetrics {
  numFetchRoutinesCounter : option loc;
  fetchersIdleTimer : loc;
  fetchDurationTimer : loc;
  numWorkerManagersGauge : loc;
  activeWorkersCounter : loc;
  pendingWMsTasksCounter : loc;
  wmsBatchDurationTimer : loc;
  wmsIdleTimer : loc
}.

Definition FetchersIdleTimer (this : consumerMetrics) : loc := fetchersIdleTimer this.
Definition FetchDurationTimer (this : consumerMetrics) : loc := fetchDurationTimer this.
Definition NumWorkerManagersGauge (this : consumerMetrics) : loc := numWorkerManagersGauge this.
Definition WMsIdleTimer (this : consumerMetrics) : loc := wmsIdleTimer this.
Definition WMsBatchDurationTimer (this : consumerMetrics) : loc := wmsBatchDurationTimer this.
Definition PendingWMsTasksCounter (this : consumerMetrics) : loc := pendingWMsTasksCounter this.
Definition ActiveWorkersCounter (this : consumerMetrics) : loc := activeWorkersCounter this.

(** [time.NewTicker(d)] panics unless [d] is positive. *)
Definition NewTicker (d : Z) : M unit :=
  if 0 <? d then modify (set_ticker (Some (mkTicker true false))) else panic.

(** [go func() { ... }()]: the reporting goroutine starts at the head of its
    loop. *)
Definition go_reporter : M unit := modify (set_reporter Waiting).

(** [EmitterMetrics.Emit(payload)], for an emitter that records its calls. *)
Definition Emit (p : payload) : M unit :=
  modify (fun w => set_emitted (emitted w ++ [p]) w).

(** What producers do to metrics: the writes of counters and gauges, and any
    other in-place write (a histogram update, a meter mark, a timer record),
    whose arithmetic is the library's. *)
Inductive mutation :=
| CounterInc (c : loc) (i : Z)
| CounterDec (c : loc) (i : Z)
| GaugeUpdate (g : loc) (v : Z)
| OtherWrite (l : loc) (f : metric -> metric).

(** The method call behind a mutation. *)
Definition apply_mutation (mu : mutation) : M unit :=
  match mu with
  | CounterInc c i => Counter.Inc c i
  | CounterDec c i => Counter.Dec c i
  | GaugeUpdate g v => Gauge.Update g v
  | OtherWrite l f => mutate l f
  end.

(** What can happen next in the process. *)
Inductive event :=
| TimerFires
| Receive
| Serialize
| Flush (err : option error)
| EmitCall
| Produce (mu : mutation)
| CallClose.

Section Reporting.

(** [EmitterMetrics.ReportingInterval()], in nanoseconds. *)
Variable ReportingInterval : Z.

(** [metrics.WriteJSONOnce]: the bytes written for a registry and the objects
    it refers to. *)
Variable WriteJSONOnce : list metric -> gmap string loc -> payload.

Definition newConsumerMetrics (consumerName : string) : M consumerMetrics :=
  exec! metrics.NewRegistry in
  let! fetchersIdle := metrics.NewRegisteredTimer ("FetchersIdleTime-" +:+ consumerName) in
  let! fetchDuration := metrics.NewRegisteredTimer ("FetchDuration-" +:+ consumerName) in
  let! numWorkerManagers := metrics.NewRegisteredGauge ("NumWorkerManagers-" +:+ consumerName) in
  let! activeWorkers := metrics.NewRegisteredCounter ("WMsActiveWorkers-" +:+ consumerName) in
  let! pendingWMsTasks := metrics.NewRegisteredCounter ("WMsPendingTasks-" +:+ consumerName) in
  let! wmsBatchDuration := metrics.NewRegisteredTimer ("WMsBatchDuration-" +:+ consumerName) in
  let! wmsIdle := metrics.NewRegisteredTimer ("WMsIdleTime-" +:+ consumerName) in
  exec! NewTicker ReportingInterval in
  exec! go_reporter in
  ret (mkConsumerMetrics None fetchersIdle fetchDuration numWorkerManagers
         activeWorkers pendingWMsTasks wmsBatchDuration wmsIdle).

(** The runtime timer fires: a tick is sent on [ticker.C], or dropped when the
    channel already holds one. A stopped ticker does not fire. *)
Definition timer_fires : M unit :=
  let! t := gets ticker in
  match t with
  | Some t => if active t then modify (set_ticker (Some (mkTicker true true))) else blocked
  | None => blocked
  end.

(** [for _ = range kafkaMetrics.ticker.C]: the goroutine takes the buffered
    tick; with an empty channel it stays blocked. *)
Definition receive : M unit :=
  let! pc := gets reporter in
  let! t := gets ticker in
  match pc, t with
  | Waiting, Some t =>
      if C t then
        exec! modify (set_ticker (Some (mkTicker (active t) false))) in
        modify (set_reporter Ticked)
      else blocked
  | _, _ => blocked
  end.

(** [metrics.WriteJSONOnce(kafkaMetrics.registry, writer)]. *)
Definition serialize : M unit :=
  let! pc := gets reporter in
  match pc with
  | Ticked =>
      let! h := gets heap in
      let! r := gets registry in
      modify (set_reporter (Written (WriteJSONOnce h r)))
  | _ => blocked
  end.

(** [if err := writer.Flush(); err != nil { panic(err) }]: the panic is not
    recovered, so it ends the process. *)
Definition flush (err : option error) : M unit :=
  let! pc := gets reporter in
  match pc with
  | Written buffer =>
      match err with
      | Some e => modify (set_crashed (Some e))
      | None => modify (set_reporter (Flushed buffer))
      end
  | _ => blocked
  end.

(** [EmitterMetrics.Emit(buffer.Bytes())], then back to the loop head. *)
Definition emit_call : M unit :=
  let! pc := gets reporter in
  match pc with
  | Flushed buffer => exec! Emit buffer in modify (set_reporter Waiting)
  | _ => blocked
  end.

(** The code an event runs. *)
Definition action (ev : event) : M unit :=
  match ev with
  | TimerFires => timer_fires
  | Receive => receive
  | Serialize => serialize
  | Flush err => flush err
  | EmitCall => emit_call
  | Produce mu => apply_mutation mu
  | CallClose => Close
  end.

(** One step of the process; a terminated process takes none. *)
Definition step (ev : event) (w : world) : option world :=
  match crashed w with
  | Some _ => None
  | None => snd <$> action ev w
  end.

(** A run: the events of the goroutine, the ticker, the producers and the
    caller of [Close], in the order in which they happen. *)
Fixpoint run (evs : list event) (w : world) : option world :=
  match evs with
  | [] => Some w
  | ev :: rest =>
      match step ev w with
      | Some w' => run rest w'
      | None => None
      end
  end.

End Reporting.

(** ** Vocabulary of the statements *)

(** Every registered name refers to an object of the heap (Go has no
    dangling pointers). *)
Definition live (w : world) : Prop :=
  map_Forall (fun _ l => is_Some (heap w !! l)) (registry w).

(** The same, as a check that computes. *)
Definition liveb (w : world) : bool :=
  forallb (fun p : string * loc =>
             match heap w !! p.2 with Some _ => true | None => false end)
          (map_to_list (registry w)).

(** The statistics [Stats] records for one metric object. *)
Definition statsOf (m : metric) : gmap string float :=
  match m with
  | StandardCounter n => <["count" := float64 n]> ∅
  | StandardGauge v => <["value" := float64 v]> ∅
  | StandardHistogram h =>
      <["variance" := hVariance h]> (<["sum" := float64 (hSum h)]>
      (<["stdDev" := hStdDev h]> (<["mean" := hMean h]>
      (<["min" := float64 (hMin h)]> (<["max" := float64 (hMax h)]>
      (<["count" := float64 (hCount h)]> ∅))))))
  | StandardMeter r =>
      <["rateMean" := mRateMean r]> (<["rate15" := mRate15 r]>
      (<["rate5" := mRate5 r]> (<["rate1" := mRate1 r]>
      (<["count" := float64 (mCount r)]> ∅))))
  | StandardTimer h r =>
      <["variance" := hVariance h]> (<["sum" := float64 (hSum h)]>
      (<["stdDev" := hStdDev h]> (<["rateMean" := mRateMean r]>
      (<["rate15" := mRate15 r]> (<["rate5" := mRate5 r]>
      (<["rate1" := mRate1 r]> (<["mean" := hMean h]>
      (<["min" := float64 (hMin h)]> (<["max" := float64 (hMax h)]>
      (<["count" := float64 (hCount h)]> ∅))))))))))
  | OtherValue _ => ∅
  end.

(** The statistic keys of each kind of metric. *)
Definition statKeys (k : kind) : gset string :=
  match k with
  | KCounter => {[ "count" ]}
  | KGauge => {[ "value" ]}
  | KHistogram =>
      {[ "count"; "max"; "min"; "mean"; "stdDev"; "sum"; "variance" ]}
  | KMeter => {[ "count"; "rate1"; "rate5"; "rate15"; "rateMean" ]}
  | KTimer =>
      {[ "count"; "max"; "min"; "mean"; "rate1"; "rate5"; "rate15";
         "rateMean"; "stdDev"; "sum"; "variance" ]}
  | KOther => ∅
  end.

(** The statistics of the object at a location. *)
Definition statsAt (h : list metric) (l : loc) : gmap string float :=
  from_option statsOf ∅ (h !! l).

(** Kinds of events, for counting. *)
Definition is_receive (ev : event) : bool :=
  match ev with Receive => true | _ => false end.
Definition is_serialize (ev : event) : bool :=
  match ev with Serialize => true | _ => false end.
Definition is_emit (ev : event) : bool :=
  match ev with EmitCall => true | _ => false end.
Definition is_timer (ev : event) : bool :=
  match ev with TimerFires => true | _ => false end.

(** How many events of a run satisfy [p]. *)
Definition count_events (p : event -> bool) (evs : list event) : nat :=
  length (filter (fun ev => p ev = true) evs).

(** Whether the goroutine is inside its loop body. *)
Definition in_flight (w : world) : nat :=
  match reporter w with
  | Ticked | Written _ | Flushed _ => 1%nat
  | NotStarted | Waiting => 0%nat
  end.

(** Ticks the goroutine has yet to turn into emit calls: the one it is
    working on and the one buffered in the channel. *)
Definition pending (w : world) : nat :=
  (in_flight w + match ticker w with
                 | Some t => if C t then 1 else 0
                 | None => 0
                 end)%nat.

(** The ticker exists and has been stopped. *)
Definition stopped (w : world) : Prop :=
  exists t, ticker w = Some t /\ active t = false.

(** [name] is bound to the handle [l], which refers to an object of kind [k]. *)
Definition registered (w : world) (name : string) (l : loc) (k : kind) : Prop :=
  registry w !! name = Some l /\
  exists m, heap w !! l = Some m /\ kind_of m = k.

(** The snapshot has an entry for [name], with the statistic keys of kind [k]. *)
Definition has_keys (snapshot : StatsMap) (name : string) (k : kind) : Prop :=
  exists stats, snapshot !! name = Some stats /\ dom stats = statKeys k.

(** The seven metrics of a consumer: every accessor's handle is bound to its
    name and refers to a new object of the kind the accessor promises. *)
Definition seven_metrics (consumerName : string) (cm : consumerMetrics) (w : world) : Prop :=
  registered w ("FetchersIdleTime-" +:+ consumerName) (FetchersIdleTimer cm) KTimer /\
  registered w ("FetchDuration-" +:+ consumerName) (FetchDurationTimer cm) KTimer /\
  registered w ("NumWorkerManagers-" +:+ consumerName) (NumWorkerManagersGauge cm) KGauge /\
  registered w ("WMsActiveWorkers-" +:+ consumerName) (ActiveWorkersCounter cm) KCounter /\
  registered w ("WMsPendingTasks-" +:+ consumerName) (PendingWMsTasksCounter cm) KCounter /\
  registered w ("WMsBatchDuration-" +:+ consumerName) (WMsBatchDurationTimer cm) KTimer /\
  registered w ("WMsIdleTime-" +:+ consumerName) (WMsIdleTimer cm) KTimer.

(** What [Stats] reports for a metric: which accessor feeds which key, the
    integer readings converted to [float64]. *)
Definition reports (m : metric) (stats : gmap string float) : Prop :=
  match m with
  | StandardCounter n => stats = {[ "count" := float64 n ]}
  | StandardGauge v => stats = {[ "value" := float64 v ]}
  | StandardHistogram h =>
      stats !! "count" = Some (float64 (hCount h)) /\
      stats !! "max" = Some (float64 (hMax h)) /\
      stats !! "min" = Some (float64 (hMin h)) /\
      stats !! "mean" = Some (hMean h) /\
      stats !! "stdDev" = Some (hStdDev h) /\
      stats !! "sum" = Some (float64 (hSum h)) /\
      stats !! "variance" = Some (hVariance h)
  | StandardMeter r =>
      stats !! "count" = Some (float64 (mCount r)) /\
      stats !! "rate1" = Some (mRate1 r) /\
      stats !! "rate5" = Some (mRate5 r) /\
      stats !! "rate15" = Some (mRate15 r) /\
      stats !! "rateMean" = Some (mRateMean r)
  | StandardTimer h r =>
      stats !! "count" = Some (float64 (hCount h)) /\
      stats !! "max" = Some (float64 (hMax h)) /\
      stats !! "min" = Some (float64 (hMin h)) /\
      stats !! "mean" = Some (hMean h) /\
      stats !! "rate1" = Some (mRate1 r) /\
      stats !! "rate5" = Some (mRate5 r) /\
      stats !! "rate15" = Some (mRate15 r) /\
      stats !! "rateMean" = Some (mRateMean r) /\
      stats !! "stdDev" = Some (hStdDev h) /\
      stats !! "sum" = Some (float64 (hSum h)) /\
      stats !! "variance" = Some (hVariance h)
  | OtherValue _ => stats = ∅
  end.

Definition is_produce (ev : event) : bool :=
  match ev with Produce _ => true | _ => false end.
Definition is_close (ev : event) : bool :=
  match ev with CallClose => true | _ => false end.

(** ** Scenarios *)

(** The end-to-end scenario: a fresh registry, one Counter named "X",
    five increments, then a snapshot. *)
Definition counter_X_scenario : M StatsMap :=
  exec! metrics.NewRegistry in
  let! x := metrics.NewRegisteredCounter "X" in
  exec! Counter.Inc x 1 in
  exec! Counter.Inc x 1 in
  exec! Counter.Inc x 1 in
  exec! Counter.Inc x 1 in
  exec! Counter.Inc x 1 in
  Stats.

(** Readings of a histogram fed 1, 2 and 9, and of a meter marked thrice. *)
Definition sample_histogram : HistogramReadings :=
  mkHistogram 3 9 1 4%float 3.5%float 12 12.25%float.
Definition sample_meter : MeterReadings :=
  mkMeter 3 0.5%float 0.25%float 0.125%float 1%float.

(** The zero state after registering one Counter named "X". *)
Definition world_with_X : world :=
  mkWorld [StandardCounter 0] {[ "X" := 0%nat ]} None NotStarted [] None.

(** A world with one registered value of each kind. *)
Definition sample_world : world :=
  mkWorld
    [StandardCounter 5; StandardGauge 42; StandardHistogram sample_histogram;
     StandardMeter sample_meter; StandardTimer sample_histogram sample_meter;
     OtherValue "Healthcheck"]
    (list_to_map [("c", 0%nat); ("g", 1%nat); ("h", 2%nat); ("m", 3%nat);
                  ("t", 4%nat); ("o", 5%nat)])
    (Some (mkTicker true false)) Waiting [] None.

(** The same world after [Close]. *)
Definition closed_sample_world : world :=
  mkWorld
    [StandardCounter 5; StandardGauge 42; StandardHistogram sample_histogram;
     StandardMeter sample_meter; StandardTimer sample_histogram sample_meter;
     OtherValue "Healthcheck"]
    ∅ (Some (mkTicker false false)) Waiting [] None.

(** An emitter reporting every 50ms, and a serializer writing one byte per
    registered metric. *)
Definition sample_interval : Z := 50000000.
Definition sample_json (h : list metric) (r : gmap string loc) : payload :=
  (fun _ => Byte.x6d) <$> map_to_list r.

(** A consumer named "c" started from the zero state, and the world after a
    given sequence of events ([boot] if the sequence is not possible). *)
Definition start : option (consumerMetrics * world) :=
  newConsumerMetrics sample_interval "c" boot.

Definition after (evs : list event) : world :=
  default boot (match start with
                | Some (_, w) => run sample_json evs w
                | None => None
                end).

(** The handles of the consumer "c": its seven objects, in the order of the
    source. *)
Definition started_cm : consumerMetrics :=
  mkConsumerMetrics None 0%nat 1%nat 2%nat 3%nat 4%nat 5%nat 6%nat.

(** The sample world after its counter has been set to 6. *)
Definition sample_world_written : world :=
  set_heap (<[0%nat := StandardCounter 6]> (heap sample_world)) sample_world.

(** What each event requires of the world and does to it. *)
Definition effect (WriteJSONOnce : list metric -> gmap string loc -> payload)
    (ev : event) (w w' : world) : Prop :=
  match ev with
  | TimerFires =>
      exists t, ticker w = Some t /\ active t = true /\
                w' = set_ticker (Some (mkTicker true true)) w
  | Receive =>
      reporter w = Waiting /\
      exists t, ticker w = Some t /\ C t = true /\
                w' = set_reporter Ticked
                       (set_ticker (Some (mkTicker (active t) false)) w)
  | Serialize =>
      reporter w = Ticked /\
      w' = set_reporter (Written (WriteJSONOnce (heap w) (registry w))) w
  | Flush None =>
      exists b, reporter w = Written b /\ w' = set_reporter (Flushed b) w
  | Flush (Some e) =>
      exists b, reporter w = Written b /\ w' = set_crashed (Some e) w
  | EmitCall =>
      exists b, reporter w = Flushed b /\
                w' = set_reporter Waiting (set_emitted (emitted w ++ [b]) w)
  | Produce _ => exists h, w' = set_heap h w
  | CallClose =>
      exists t, ticker w = Some t /\
                w' = set_registry ∅ (set_ticker (Some (mkTicker false (C t))) w)
  end.

(** The serialized snapshot the goroutine holds, if any. *)
Definition buffer_of (w : world) : list payload :=
  match reporter w with
  | Written b | Flushed b => [b]
  | NotStarted | Waiting | Ticked => []
  end.

(** The snapshots serialized along a run, in order: the bytes written at each
    [Serialize] step for the registry as it then was. *)
Fixpoint snapshots (WriteJSONOnce : list metric -> gmap string loc -> payload)
    (evs : list event) (w : world) : list payload :=
  match evs with
  | [] => []
  | ev :: rest =>
      match step WriteJSONOnce ev w with
      | Some w' =>
          (if is_serialize ev then [WriteJSONOnce (heap w) (registry w)] else [])
          ++ snapshots WriteJSONOnce rest w'
      | None => []
      end
  end.

(** * Properties of the snapshot *)

(** Runs the accessor calls of a visit against the object [H] describes. *)
Ltac run_visit H :=
  repeat (progress (
    unfold Counter.Count, Gauge.Value,
      Histogram.Count, Histogram.Max, Histogram.Min, Histogram.Mean,
      Histogram.StdDev, Histogram.Sum, Histogram.Variance, Histogram.readings,
      Meter.Count, Meter.Rate1, Meter.Rate5, Meter.Rate15, Meter.RateMean,
      Meter.readings,
      Timer.Count, Timer.Max, Timer.Min, Timer.Mean, Timer.StdDev, Timer.Sum,
      Timer.Variance, Timer.Rate1, Timer.Rate5, Timer.Rate15, Timer.RateMean,
      Timer.histogram, Timer.meter,
      typeOf, setStat, bind, load, ret;
    rewrite ?H; cbn [kind_of]; rewrite ?lookup_insert_eq, ?insert_insert_eq)).

Lemma statsVisit_ok (w : world) (name : string) (l : loc) (m : metric) (mm : StatsMap) :
  heap w !! l = Some m ->
  statsVisit name l mm w = Some (<[name := statsOf m]> mm, w).
Proof.
  intros H. unfold statsVisit.
  destruct m; run_visit H; reflexivity.
Qed.

(** Visiting a list of live entries inserts the statistics of each, and
    leaves the world as it was. *)
Lemma visitAll_stats (w : world) (es : list (string * loc)) :
  forall mm : StatsMap,
  Forall (fun p => is_Some (heap w !! p.2)) es ->
  metrics.visitAll statsVisit es mm w =
  Some (foldl (fun acc p => <[p.1 := statsAt (heap w) p.2]> acc) mm es, w).
Proof.
  induction es as [|[n l] es IH]; intros mm Hall; [reflexivity|].
  apply Forall_cons in Hall as [[m Hm] Hall]. cbn in Hm.
  cbn [metrics.visitAll foldl]. unfold bind at 1.
  rewrite (statsVisit_ok w n l m mm Hm), (IH _ Hall).
  cbn [fst snd].
  replace (statsAt (heap w) l) with (statsOf m)
    by (unfold statsAt; rewrite Hm; reflexivity).
  reflexivity.
Qed.

(** Inserting the images of an enumeration without repeated keys builds the
    image of the map it enumerates. *)
Lemma foldl_insert_fmap {A B} (g : A -> B) (es : list (string * A)) :
  NoDup es.*1 ->
  forall acc : gmap string B,
  foldl (fun acc p => <[p.1 := g p.2]> acc) acc es
  = (g <$> (list_to_map es : gmap string A)) ∪ acc.
Proof.
  induction es as [|[n a] es IH]; intros Hnd acc.
  - cbn. rewrite fmap_empty. symmetry. apply (left_id_L ∅ (∪)).
  - rewrite fmap_cons in Hnd. apply NoDup_cons in Hnd as [Hn Hnd].
    cbn [foldl list_to_map foldr fst snd] in *.
    rewrite (IH Hnd), fmap_insert, <- insert_union_l.
    symmetry. apply insert_union_r. rewrite lookup_fmap.
    rewrite (not_elem_of_list_to_map_1 es n Hn). reflexivity.
Qed.

(** The snapshot in closed form: every registered name, mapped to the
    statistics of its metric; the world is unchanged. *)
Lemma Stats_ok (w : world) :
  live w -> Stats w = Some (statsAt (heap w) <$> registry w, w).
Proof.
  intros Hlive. unfold Stats, metrics.Each, bind, gets.
  rewrite visitAll_stats.
  - rewrite (foldl_insert_fmap (statsAt (heap w))) by apply NoDup_fst_map_to_list.
    rewrite list_to_map_to_list. f_equal. f_equal. apply (right_id_L ∅ (∪)).
  - apply Forall_forall. intros [n l] Hin. cbn.
    apply elem_of_map_to_list in Hin. exact (Hlive n l Hin).
Qed.

(** Go enumerates a map in no fixed order: the snapshot is the same for every
    enumeration of the registry. *)
Lemma Stats_any_order (w : world) (es : list (string * loc)) :
  live w -> es ≡ₚ map_to_list (registry w) ->
  metrics.visitAll statsVisit es ∅ w
  = Some (statsAt (heap w) <$> registry w, w).
Proof.
  intros Hlive Hperm.
  assert (Hnd : NoDup es.*1).
  { rewrite Hperm. apply NoDup_fst_map_to_list. }
  rewrite visitAll_stats.
  - rewrite (foldl_insert_fmap (statsAt (heap w))) by exact Hnd.
    rewrite (list_to_map_proper es (map_to_list (registry w)) Hnd Hperm).
    rewrite list_to_map_to_list. f_equal. f_equal. apply (right_id_L ∅ (∪)).
  - apply Forall_forall. intros [n l] Hin. cbn.
    rewrite Hperm in Hin. apply elem_of_map_to_list in Hin.
    exact (Hlive n l Hin).
Qed.

Lemma statsOf_keys (m : metric) : dom (statsOf m) = statKeys (kind_of m).
Proof.
  destruct m; cbn [statsOf statKeys kind_of];
    rewrite ?dom_insert_L, ?dom_empty_L; set_solver.
Qed.

(** ** Reads and writes through handles *)

Lemma load_ok (w : world) (l : loc) (m : metric) :
  heap w !! l = Some m -> load l w = Some (m, w).
Proof. intros H. unfold load. rewrite H. reflexivity. Qed.

Lemma store_ok (w : world) (l : loc) (m m' : metric) :
  heap w !! l = Some m ->
  store l m' w = Some (tt, set_heap (<[l := m']> (heap w)) w).
Proof. intros H. unfold store. rewrite H. reflexivity. Qed.

Lemma heap_after_store (w : world) (l : loc) (m m' : metric) :
  heap w !! l = Some m ->
  heap (set_heap (<[l := m']> (heap w)) w) !! l = Some m'.
Proof.
  intros H. cbn. apply list_lookup_insert_eq. eapply lookup_lt_Some, H.
Qed.

Lemma mutate_ok (w : world) (l : loc) (m : metric) (f : metric -> metric) :
  heap w !! l = Some m ->
  mutate l f w = Some (tt, set_heap (<[l := f m]> (heap w)) w).
Proof.
  intros H. unfold mutate, bind. rewrite (load_ok w l m H).
  apply (store_ok w l m), H.
Qed.

Lemma Count_ok (w : world) (c : loc) (n : Z) :
  heap w !! c = Some (StandardCounter n) -> Counter.Count c w = Some (n, w).
Proof. intros H. unfold Counter.Count, bind. rewrite (load_ok w c _ H). reflexivity. Qed.

Lemma Inc_ok (w : world) (c : loc) (n i : Z) :
  heap w !! c = Some (StandardCounter n) ->
  Counter.Inc c i w
  = Some (tt, set_heap (<[c := StandardCounter (wrap64 (n + i))]> (heap w)) w).
Proof.
  intros H. unfold Counter.Inc, bind. rewrite (Count_ok w c n H).
  apply (store_ok w c _ _ H).
Qed.

Lemma Value_ok (w : world) (g : loc) (v : Z) :
  heap w !! g = Some (StandardGauge v) -> Gauge.Value g w = Some (v, w).
Proof. intros H. unfold Gauge.Value, bind. rewrite (load_ok w g _ H). reflexivity. Qed.

Lemma Update_ok (w : world) (g : loc) (v v' : Z) :
  heap w !! g = Some (StandardGauge v) ->
  Gauge.Update g v' w
  = Some (tt, set_heap (<[g := StandardGauge v']> (heap w)) w).
Proof.
  intros H. unfold Gauge.Update, bind. rewrite (Value_ok w g v H).
  apply (store_ok w g _ _ H).
Qed.

Lemma register_fresh (w : world) (name : string) (factory : metric) :
  registry w !! name = None ->
  metrics.register name factory w
  = Some (length (heap w),
          set_registry (<[name := length (heap w)]> (registry w))
            (set_heap (heap w ++ [factory]) w)).
Proof.
  intros H. unfold metrics.register, bind, gets. rewrite H. reflexivity.
Qed.

Lemma register_present (w : world) (name : string) (factory m : metric) (l : loc) :
  registry w !! name = Some l -> heap w !! l = Some m ->
  kind_of m = kind_of factory ->
  metrics.register name factory w = Some (l, w).
Proof.
  intros Hr Hh Hk. unfold metrics.register, bind, gets. rewrite Hr.
  rewrite (load_ok w l m Hh), Hk.
  destruct (kind_of factory); reflexivity.
Qed.

(** ** The claims about [Stats] *)

(** C1. For every registry state whose entries are live objects, [Stats]
    returns a mapping with exactly the registered names, and maps each name to
    exactly the statistic keys of its metric's kind: a Counter to {count}, a
    Gauge to {value}, a Histogram to {count, max, min, mean, stdDev, sum,
    variance}, a Meter to {count, rate1, rate5, rate15, rateMean}, a Timer to
    the eleven keys of [statKeys KTimer]. *)
Theorem Stats_keys_by_kind (w : world) :
  live w ->
  exists snapshot : StatsMap,
    Stats w = Some (snapshot, w) /\
    dom snapshot = dom (registry w) /\
    forall name l m,
      registry w !! name = Some l -> heap w !! l = Some m ->
      exists stats, snapshot !! name = Some stats /\
                    dom stats = statKeys (kind_of m).
Proof.
  intros Hlive. exists (statsAt (heap w) <$> registry w).
  split; [apply Stats_ok, Hlive|]. split; [apply dom_fmap_L|].
  intros name l m Hr Hh. exists (statsOf m). split.
  - rewrite lookup_fmap, Hr. cbn. unfold statsAt. rewrite Hh. reflexivity.
  - apply statsOf_keys.
Qed.

(** C8. [Stats] only reads: it returns its mapping and leaves the whole world
    (the registry and every metric object) as it found it, and two calls in a
    row return the same mapping. *)
Theorem Stats_is_pure (w : world) :
  live w ->
  exists snapshot : StatsMap,
    Stats w = Some (snapshot, w) /\
    (let! first := Stats in let! second := Stats in ret (first, second)) w
    = Some ((snapshot, snapshot), w).
Proof.
  intros Hlive. exists (statsAt (heap w) <$> registry w).
  split; [apply Stats_ok, Hlive|].
  unfold bind. rewrite !(Stats_ok w Hlive). reflexivity.
Qed.

(** C9. A registered value that is none of Counter, Gauge, Histogram, Meter
    and Timer still has its name in the snapshot, mapped to an empty
    statistics mapping; [Stats] does not fail. *)
Theorem Stats_other_kind_empty (w : world) (name : string) (l : loc) (m : metric) :
  live w ->
  registry w !! name = Some l -> heap w !! l = Some m ->
  kind_of m = KOther ->
  exists snapshot : StatsMap,
    Stats w = Some (snapshot, w) /\ snapshot !! name = Some ∅.
Proof.
  intros Hlive Hr Hh Hk. exists (statsAt (heap w) <$> registry w).
  split; [apply Stats_ok, Hlive|].
  rewrite lookup_fmap, Hr. cbn. unfold statsAt. rewrite Hh. cbn.
  destruct m; try discriminate Hk. reflexivity.
Qed.

Lemma Stats_single (w : world) (name : string) (l : loc) (m : metric) :
  registry w = {[ name := l ]} -> heap w !! l = Some m ->
  Stats w = Some ({[ name := statsOf m ]}, w).
Proof.
  intros Hr Hh. rewrite Stats_ok.
  - rewrite Hr, map_fmap_singleton. unfold statsAt. rewrite Hh. reflexivity.
  - unfold live. rewrite Hr. apply map_Forall_singleton. rewrite Hh. eauto.
Qed.

(** An increment changes the counter it is applied to and nothing else of
    the registry. *)
Lemma Inc_spec (w : world) (c : loc) (n i : Z) :
  heap w !! c = Some (StandardCounter n) ->
  exists w', Counter.Inc c i w = Some (tt, w') /\
             heap w' !! c = Some (StandardCounter (wrap64 (n + i))) /\
             registry w' = registry w.
Proof.
  intros H. eexists. split; [apply (Inc_ok w c n i H)|].
  split; [apply (heap_after_store w c _ _ H) | reflexivity].
Qed.

Lemma wrap64_add (a b : Z) : wrap64 (wrap64 a + b) = wrap64 (a + b).
Proof.
  unfold wrap64. f_equal.
  replace ((a + 2 ^ 63) mod 2 ^ 64 - 2 ^ 63 + b + 2 ^ 63)
    with ((a + 2 ^ 63) mod 2 ^ 64 + b) by lia.
  rewrite Zplus_mod_idemp_l. f_equal. lia.
Qed.

Lemma wrap64_range (z : Z) : - 2 ^ 63 <= wrap64 z < 2 ^ 63.
Proof.
  unfold wrap64. pose proof (Z.mod_pos_bound (z + 2 ^ 63) (2 ^ 64)). lia.
Qed.

Lemma wrap64_small (z : Z) : - 2 ^ 63 <= z < 2 ^ 63 -> wrap64 z = z.
Proof. intros H. unfold wrap64. rewrite Z.mod_small; lia. Qed.

(** Increments add up: after any sequence of deltas the counter holds the
    [int64] sum of its old value and all of them. *)
Lemma Inc_all_sum (c : loc) (ds : list Z) :
  forall (w : world) (n : Z),
  - 2 ^ 63 <= n < 2 ^ 63 ->
  heap w !! c = Some (StandardCounter n) ->
  exists w',
    foldr (fun d k => exec! Counter.Inc c d in k) (ret tt) ds w = Some (tt, w') /\
    heap w' !! c = Some (StandardCounter (wrap64 (n + foldr Z.add 0 ds))).
Proof.
  induction ds as [|d ds IH]; intros w n Hn H.
  - exists w. split; [reflexivity|]. cbn. rewrite Z.add_0_r, wrap64_small; assumption.
  - destruct (Inc_spec w c n d H) as (w1 & E1 & H1 & _).
    cbn [foldr]. unfold bind at 1. rewrite E1.
    destruct (IH w1 _ (wrap64_range _) H1) as (w' & E' & H').
    exists w'. split; [exact E'|]. rewrite H'. do 2 f_equal.
    rewrite wrap64_add. f_equal. lia.
Qed.

(** C2. Starting from any world: create the registry, register one Counter
    named "X", increment it five times by one, take the snapshot. The result
    is the mapping {"X": {"count": 5.0}}. *)
Theorem counter_X_snapshot (w0 : world) :
  exists w : world,
    counter_X_scenario w0 = Some ({[ "X" := {[ "count" := 5%float ]} ]}, w).
Proof.
  unfold counter_X_scenario, metrics.NewRegistry, metrics.NewRegisteredCounter.
  unfold bind at 1. cbn [modify].
  unfold bind at 1. rewrite register_fresh by apply lookup_empty.
  set (x := length (heap (set_registry ∅ w0))).
  set (w1 := set_registry _ _).
  assert (H1 : heap w1 !! x = Some (StandardCounter 0)).
  { subst w1 x. cbn. apply list_lookup_middle. reflexivity. }
  assert (R1 : registry w1 = {[ "X" := x ]}) by reflexivity.
  clearbody w1 x.
  destruct (Inc_spec w1 x _ 1 H1) as (w2 & E2 & H2 & R2).
  destruct (Inc_spec w2 x _ 1 H2) as (w3 & E3 & H3 & R3).
  destruct (Inc_spec w3 x _ 1 H3) as (w4 & E4 & H4 & R4).
  destruct (Inc_spec w4 x _ 1 H4) as (w5 & E5 & H5 & R5).
  destruct (Inc_spec w5 x _ 1 H5) as (w6 & E6 & H6 & R6).
  exists w6. unfold bind. rewrite E2, E3, E4, E5, E6.
  rewrite (Stats_single w6 "X" x _ (eq_trans R6 (eq_trans R5 (eq_trans R4
             (eq_trans R3 (eq_trans R2 R1))))) H6).
  reflexivity.
Qed.

Lemma liveb_sound (w : world) : liveb w = true -> live w.
Proof.
  unfold liveb. rewrite forallb_forall. intros H n l Hr.
  specialize (H (n, l)). cbn in H.
  destruct (heap w !! l); [eauto|].
  discriminate H. apply list_elem_of_In, elem_of_map_to_list, Hr.
Qed.

Lemma sample_world_live : live sample_world.
Proof. apply liveb_sound. vm_compute. reflexivity. Qed.

Lemma Stats_keys_by_kind_witness :
  live sample_world /\
  exists snapshot : StatsMap,
    Stats sample_world = Some (snapshot, sample_world) /\
    dom snapshot = dom (registry sample_world) /\
    forall name l m,
      registry sample_world !! name = Some l ->
      heap sample_world !! l = Some m ->
      exists stats, snapshot !! name = Some stats /\
                    dom stats = statKeys (kind_of m).
Proof.
  split; [exact sample_world_live|].
  exact (Stats_keys_by_kind sample_world sample_world_live).
Defined.

Lemma Stats_is_pure_witness :
  live sample_world /\
  exists snapshot : StatsMap,
    Stats sample_world = Some (snapshot, sample_world) /\
    (let! first := Stats in let! second := Stats in ret (first, second))
      sample_world
    = Some ((snapshot, snapshot), sample_world).
Proof.
  split; [exact sample_world_live|].
  exact (Stats_is_pure sample_world sample_world_live).
Defined.

Lemma Stats_other_kind_empty_witness :
  (live sample_world /\
   registry sample_world !! "o" = Some 5%nat /\
   heap sample_world !! 5%nat = Some (OtherValue "Healthcheck") /\
   kind_of (OtherValue "Healthcheck") = KOther) /\
  exists snapshot : StatsMap,
    Stats sample_world = Some (snapshot, sample_world) /\
    snapshot !! "o" = Some ∅.
Proof.
  assert (Hr : registry sample_world !! "o" = Some 5%nat) by (vm_compute; reflexivity).
  assert (Hh : heap sample_world !! 5%nat = Some (OtherValue "Healthcheck"))
    by reflexivity.
  split.
  { split; [exact sample_world_live|]. split; [exact Hr|]. split; [exact Hh|].
    reflexivity. }
  exact (Stats_other_kind_empty sample_world "o" 5%nat _
           sample_world_live Hr Hh eq_refl).
Defined.

(** ** The registry: registration and shutdown *)

Lemma kind_eqb_eq (a b : kind) : kind_eqb a b = true <-> a = b.
Proof. destruct a, b; cbn; split; congruence. Qed.

(** Whatever [register] returns is the handle bound to the name afterwards,
    and it refers to an object of the requested kind. *)
Lemma register_inv (w w1 : world) (name : string) (factory : metric) (h : loc) :
  metrics.register name factory w = Some (h, w1) ->
  registry w1 !! name = Some h /\
  exists m, heap w1 !! h = Some m /\ kind_of m = kind_of factory.
Proof.
  unfold metrics.register, bind, gets.
  destruct (registry w !! name) as [l|] eqn:Hr.
  - unfold load. destruct (heap w !! l) as [m|] eqn:Hh; [|discriminate].
    destruct (kind_eqb (kind_of m) (kind_of factory)) eqn:Hk; [|discriminate].
    intros [= <- <-]. split; [exact Hr|]. exists m. split; [exact Hh|].
    apply kind_eqb_eq, Hk.
  - cbn. intros [= <- <-]. cbn. split; [apply lookup_insert_eq|].
    exists factory. split; [|reflexivity].
    apply list_lookup_middle. reflexivity.
Qed.

Lemma Close_inv (w w1 : world) :
  Close w = Some (tt, w1) ->
  exists t, ticker w = Some t /\
            w1 = set_registry ∅ (set_ticker (Some (mkTicker false (C t))) w).
Proof.
  unfold Close, Stop, metrics.UnregisterAll, bind, gets, modify.
  destruct (ticker w) as [t|]; [|discriminate].
  intros [= <-]. exists t. split; reflexivity.
Qed.

Lemma Each_empty {A} (visit : string -> loc -> A -> M A) (a : A) (w : world) :
  registry w = ∅ -> metrics.Each visit a w = Some (a, w).
Proof.
  intros Hr. unfold metrics.Each, bind, gets. rewrite Hr, map_to_list_empty.
  reflexivity.
Qed.

(** C7. Registering a name a second time, with a metric of the same kind,
    returns the handle of the first registration and changes nothing: the
    metric is not replaced. Both handles refer to one object, so a write
    through either is read through the other. *)
Theorem register_twice_same_metric
    (w w1 : world) (name : string) (first second : metric) (h1 : loc) :
  metrics.register name first w = Some (h1, w1) ->
  kind_of second = kind_of first ->
  exists h2 m,
    metrics.register name second w1 = Some (h2, w1) /\
    h2 = h1 /\
    load h1 w1 = Some (m, w1) /\
    (forall f, exists w2,
        mutate h1 f w1 = Some (tt, w2) /\ load h2 w2 = Some (f m, w2)) /\
    (forall f, exists w2,
        mutate h2 f w1 = Some (tt, w2) /\ load h1 w2 = Some (f m, w2)).
Proof.
  intros Hreg Hkind.
  destruct (register_inv _ _ _ _ _ Hreg) as (Hr & m & Hh & Hk).
  exists h1, m. split.
  { apply (register_present w1 name second m h1 Hr Hh). congruence. }
  split; [reflexivity|]. split; [apply load_ok, Hh|].
  split; intros f; eexists; (split; [apply (mutate_ok w1 h1 m f Hh)|]);
    apply load_ok, (heap_after_store w1 h1 m (f m) Hh).
Qed.

Lemma register_twice_same_metric_witness :
  (metrics.register "X" metrics.NewCounter boot
   = Some (0%nat, world_with_X) /\
   kind_of metrics.NewCounter = kind_of metrics.NewCounter) /\
  exists h2 m,
    metrics.register "X" metrics.NewCounter
      world_with_X
    = Some (h2, world_with_X) /\
    h2 = 0%nat /\
    load 0%nat world_with_X
    = Some (m, world_with_X) /\
    (forall f, exists w2,
        mutate 0%nat f world_with_X
        = Some (tt, w2) /\ load h2 w2 = Some (f m, w2)) /\
    (forall f, exists w2,
        mutate h2 f world_with_X
        = Some (tt, w2) /\ load 0%nat w2 = Some (f m, w2)).
Proof.
  assert (H : metrics.register "X" metrics.NewCounter boot
              = Some (0%nat, world_with_X)) by reflexivity.
  split; [split; [exact H | reflexivity]|].
  exact (register_twice_same_metric boot _ "X" metrics.NewCounter
           metrics.NewCounter 0%nat H eq_refl).
Defined.

(** C3. After [Close] has returned the registry is empty: [Each] visits
    nothing and [Stats] returns the empty mapping. The metric objects are
    untouched, so a handle obtained before the call still reads what it read
    before, and a write through it takes effect and is read back; the registry
    stays empty meanwhile. *)
Theorem Close_empties_registry (w w1 : world) :
  Close w = Some (tt, w1) ->
  registry w1 = ∅ /\
  (forall (A : Type) (visit : string -> loc -> A -> M A) (a : A),
      metrics.Each visit a w1 = Some (a, w1)) /\
  Stats w1 = Some (∅, w1) /\
  heap w1 = heap w /\
  (forall l m, heap w !! l = Some m ->
     load l w1 = Some (m, w1) /\
     forall f, exists w2,
       mutate l f w1 = Some (tt, w2) /\ load l w2 = Some (f m, w2) /\
       registry w2 = ∅) /\
  (forall c n i, heap w !! c = Some (StandardCounter n) ->
     exists w2, Counter.Inc c i w1 = Some (tt, w2) /\
                Counter.Count c w2 = Some (wrap64 (n + i), w2)) /\
  (forall g v v', heap w !! g = Some (StandardGauge v) ->
     exists w2, Gauge.Update g v' w1 = Some (tt, w2) /\
                Gauge.Value g w2 = Some (v', w2)).
Proof.
  intros Hc. destruct (Close_inv w w1 Hc) as (t & Ht & ->).
  set (w1 := set_registry _ _).
  assert (Hr : registry w1 = ∅) by reflexivity.
  assert (Hh : heap w1 = heap w) by reflexivity.
  clearbody w1.
  split; [exact Hr|]. split; [intros; apply Each_empty, Hr|].
  split; [apply Each_empty, Hr|]. split; [exact Hh|].
  rewrite <- Hh. repeat split.
  - apply load_ok. assumption.
  - intros f. eexists. split; [apply (mutate_ok w1 l m f); assumption|].
    split; [|exact Hr]. apply load_ok, (heap_after_store w1 l m). assumption.
  - intros c n i H. eexists. split; [apply (Inc_ok w1 c n i H)|].
    apply Count_ok, (heap_after_store w1 c _ _ H).
  - intros g v v' H. eexists. split; [apply (Update_ok w1 g v v' H)|].
    apply Value_ok, (heap_after_store w1 g _ _ H).
Qed.

Lemma Close_sample_world : Close sample_world = Some (tt, closed_sample_world).
Proof. reflexivity. Qed.

Lemma Close_empties_registry_witness :
  Close sample_world = Some (tt, closed_sample_world) /\
  registry closed_sample_world = ∅ /\
  (forall (A : Type) (visit : string -> loc -> A -> M A) (a : A),
      metrics.Each visit a closed_sample_world = Some (a, closed_sample_world)) /\
  Stats closed_sample_world = Some (∅, closed_sample_world) /\
  heap closed_sample_world = heap sample_world /\
  (forall l m, heap sample_world !! l = Some m ->
     load l closed_sample_world = Some (m, closed_sample_world) /\
     forall f, exists w2,
       mutate l f closed_sample_world = Some (tt, w2) /\
       load l w2 = Some (f m, w2) /\ registry w2 = ∅) /\
  (forall c n i, heap sample_world !! c = Some (StandardCounter n) ->
     exists w2, Counter.Inc c i closed_sample_world = Some (tt, w2) /\
                Counter.Count c w2 = Some (wrap64 (n + i), w2)) /\
  (forall g v v', heap sample_world !! g = Some (StandardGauge v) ->
     exists w2, Gauge.Update g v' closed_sample_world = Some (tt, w2) /\
                Gauge.Value g w2 = Some (v', w2)).
Proof.
  split; [exact Close_sample_world|].
  exact (Close_empties_registry sample_world closed_sample_world Close_sample_world).
Defined.

(** C10. A second [Close] after a first one does not fail and changes
    nothing: the ticker is stopped, the registry and the snapshot are empty,
    exactly as after the first call. *)
Theorem Close_twice (w w1 : world) :
  Close w = Some (tt, w1) ->
  Close w1 = Some (tt, w1) /\
  (exec! Close in Close) w = Some (tt, w1) /\
  stopped w1 /\ registry w1 = ∅ /\ Stats w1 = Some (∅, w1).
Proof.
  intros Hc. destruct (Close_inv w w1 Hc) as (t & Ht & Hw1).
  assert (H2 : Close w1 = Some (tt, w1)) by (rewrite Hw1; reflexivity).
  split; [exact H2|]. split; [unfold bind; rewrite Hc; exact H2|].
  rewrite Hw1. split; [eexists; split; reflexivity|].
  split; [reflexivity|]. apply Each_empty. reflexivity.
Qed.

Lemma Close_twice_witness :
  Close sample_world = Some (tt, closed_sample_world) /\
  Close closed_sample_world = Some (tt, closed_sample_world) /\
  (exec! Close in Close) sample_world = Some (tt, closed_sample_world) /\
  stopped closed_sample_world /\ registry closed_sample_world = ∅ /\
  Stats closed_sample_world = Some (∅, closed_sample_world).
Proof.
  split; [exact Close_sample_world|].
  exact (Close_twice sample_world closed_sample_world Close_sample_world).
Defined.

(** * Properties of the reporting loop *)

Lemma mutation_heap_only (mu : mutation) (w w' : world) (u : unit) :
  apply_mutation mu w = Some (u, w') -> exists h, w' = set_heap h w.
Proof.
  destruct mu; cbn [apply_mutation];
    unfold Counter.Inc, Counter.Dec, Counter.Count, Gauge.Update, Gauge.Value,
      mutate, bind, load, store, ret, panic;
    intros H; repeat case_match; simplify_eq; eexists; reflexivity.
Qed.

Section ReportingFacts.

Variable WriteJSONOnce : list metric -> gmap string loc -> payload.

Local Abbreviation stepJ := (step WriteJSONOnce).
Local Abbreviation runJ := (run WriteJSONOnce).
Local Abbreviation effectJ := (effect WriteJSONOnce).
Local Abbreviation snapshotsJ := (snapshots WriteJSONOnce).

Lemma step_inv (ev : event) (w w' : world) :
  stepJ ev w = Some w' -> crashed w = None /\ effectJ ev w w'.
Proof.
  unfold step. destruct (crashed w); [discriminate|].
  intros H. split; [reflexivity|].
  destruct (action WriteJSONOnce ev w) as [[u w1]|] eqn:Ha; [|discriminate].
  cbn in H. injection H as ->.
  destruct ev; cbn [action effect] in *.
  - unfold timer_fires, bind, gets, modify, blocked in Ha.
    destruct (ticker w) as [t|]; [|discriminate].
    destruct (active t) eqn:Hact; [|discriminate].
    injection Ha as _ <-. eauto.
  - unfold receive, bind, gets, modify, blocked in Ha.
    destruct (reporter w); try discriminate.
    destruct (ticker w) as [t|]; [|discriminate].
    destruct (C t) eqn:HC; [|discriminate].
    injection Ha as _ <-. eauto.
  - unfold serialize, bind, gets, modify, blocked in Ha.
    destruct (reporter w); try discriminate.
    injection Ha as _ <-. eauto.
  - unfold flush, bind, gets, modify, blocked in Ha.
    destruct (reporter w); try discriminate.
    destruct err; injection Ha as _ <-; eauto.
  - unfold emit_call, Emit, bind, gets, modify, blocked in Ha.
    destruct (reporter w); try discriminate.
    injection Ha as _ <-. eauto.
  - eapply mutation_heap_only, Ha.
  - destruct u. apply Close_inv, Ha.
Qed.

Lemma run_cons (ev : event) (evs : list event) (w w' : world) :
  runJ (ev :: evs) w = Some w' ->
  exists w1, stepJ ev w = Some w1 /\ runJ evs w1 = Some w'.
Proof.
  cbn. destruct (stepJ ev w) as [w1|]; [eauto | discriminate].
Qed.

Lemma count_events_cons (p : event -> bool) (ev : event) (evs : list event) :
  count_events p (ev :: evs)
  = ((if p ev then 1 else 0) + count_events p evs)%nat.
Proof.
  unfold count_events. rewrite filter_cons.
  destruct (p ev); case_decide; try congruence; reflexivity.
Qed.


(** Once the ticker is stopped it stays stopped and never fires; whatever is
    emitted from then on is paid for by a tick that was already pending. *)
Lemma step_stopped (ev : event) (w w' : world) :
  stopped w -> stepJ ev w = Some w' ->
  stopped w' /\ is_timer ev = false /\
  exists more, emitted w' = emitted w ++ more /\
               (length more + pending w' <= pending w)%nat.
Proof.
  intros (t & Ht & Hoff) H. destruct (step_inv _ _ _ H) as (_ & He).
  unfold stopped, pending, in_flight.
  destruct ev as [| | |[e|]| | |]; cbn [effect is_timer] in He.
  - destruct He as (t' & Ht' & Hon & _). congruence.
  - destruct He as (Hpc & t' & Ht' & HC & ->). cbn. rewrite Hpc, Ht'.
    assert (t' = t) as -> by congruence. rewrite HC, Hoff.
    split; [eauto|]. split; [reflexivity|]. exists []. rewrite app_nil_r.
    split; [reflexivity | cbn; lia].
  - destruct He as (Hpc & ->). cbn. rewrite Hpc, Ht.
    split; [eauto|]. split; [reflexivity|]. exists []. rewrite app_nil_r.
    split; [reflexivity | cbn; lia].
  - destruct He as (b & Hpc & ->). cbn. rewrite Hpc, Ht.
    split; [eauto|]. split; [reflexivity|]. exists []. rewrite app_nil_r.
    split; [reflexivity | cbn; lia].
  - destruct He as (b & Hpc & ->). cbn. rewrite Hpc, Ht.
    split; [eauto|]. split; [reflexivity|]. exists []. rewrite app_nil_r.
    split; [reflexivity | cbn; lia].
  - destruct He as (b & Hpc & ->). cbn. rewrite Hpc, Ht.
    split; [eauto|]. split; [reflexivity|]. exists [b].
    split; [reflexivity | cbn; lia].
  - destruct He as (h & ->). cbn. rewrite Ht.
    split; [eauto|]. split; [reflexivity|]. exists []. rewrite app_nil_r.
    split; [reflexivity | cbn; lia].
  - destruct He as (t' & Ht' & ->). cbn. rewrite Ht.
    assert (t' = t) as -> by congruence.
    split; [eauto|]. split; [reflexivity|]. exists []. rewrite app_nil_r.
    split; [reflexivity | cbn; lia].
Qed.

Lemma run_stopped (evs : list event) :
  forall w w', stopped w -> runJ evs w = Some w' ->
  count_events is_timer evs = 0%nat /\
  exists later, emitted w' = emitted w ++ later /\
                (length later + pending w' <= pending w)%nat.
Proof.
  induction evs as [|ev evs IH]; intros w w' Hs Hrun.
  - injection Hrun as <-. split; [reflexivity|]. exists []. rewrite app_nil_r.
    split; [reflexivity | cbn; lia].
  - destruct (run_cons _ _ _ _ Hrun) as (w1 & Hstep & Hrest).
    destruct (step_stopped _ _ _ Hs Hstep) as (Hs1 & Hev & more & Hm & Hle).
    destruct (IH _ _ Hs1 Hrest) as (Hcount & later & Hl & Hle').
    split; [rewrite count_events_cons, Hev, Hcount; reflexivity|].
    exists (more ++ later). rewrite Hl, Hm, app_assoc, length_app.
    split; [reflexivity | lia].
Qed.

(** C5, as the code has it. [Close] stops the ticker and returns without
    waiting for the goroutine. After it has returned the ticker never fires
    again, and every later emit call reports a tick that was pending when
    [Close] returned: the one the goroutine was working on, or the one
    buffered in the channel. So at most two emit calls follow, and none when
    nothing was pending. *)
Theorem Close_bounds_later_emits (w w1 w' : world) (evs : list event) :
  Close w = Some (tt, w1) -> runJ evs w1 = Some w' ->
  emitted w1 = emitted w /\
  count_events is_timer evs = 0%nat /\
  (pending w1 <= 2)%nat /\
  exists later, emitted w' = emitted w1 ++ later /\
                (length later + pending w' <= pending w1)%nat /\
                (pending w1 = 0%nat -> emitted w' = emitted w1).
Proof.
  intros Hc Hrun. destruct (Close_inv _ _ Hc) as (t & Ht & Hw1).
  assert (Hs : stopped w1) by (rewrite Hw1; eexists; split; reflexivity).
  split; [rewrite Hw1; reflexivity|].
  destruct (run_stopped _ _ _ Hs Hrun) as (Hcount & later & Hl & Hle).
  split; [exact Hcount|]. split.
  { unfold pending, in_flight. destruct (reporter w1), (ticker w1) as [[a []]|]; cbn; lia. }
  exists later. split; [exact Hl|]. split; [exact Hle|].
  intros H0. rewrite H0 in Hle. destruct later; [|cbn in Hle; lia].
  rewrite Hl. apply app_nil_r.
Qed.

(** The books of a run: the emitter's log followed by the snapshot in the
    goroutine's hands is the sequence of snapshots serialized so far; ticks
    received and emit calls differ by the tick in progress. *)
Lemma run_accounting (evs : list event) :
  forall w w', runJ evs w = Some w' ->
  emitted w' ++ buffer_of w' = emitted w ++ buffer_of w ++ snapshotsJ evs w /\
  (count_events is_receive evs + in_flight w
   = count_events is_emit evs + in_flight w')%nat /\
  length (emitted w') = (length (emitted w) + count_events is_emit evs)%nat.
Proof.
  induction evs as [|ev evs IH]; intros w w' Hrun.
  - injection Hrun as <-. cbn. rewrite app_nil_r. repeat split; lia.
  - destruct (run_cons _ _ _ _ Hrun) as (w1 & Hstep & Hrest).
    destruct (IH _ _ Hrest) as (Hlog & Hcnt & Hlen).
    rewrite !count_events_cons. cbn [snapshots]. rewrite Hstep, Hlog, Hlen.
    destruct (step_inv _ _ _ Hstep) as (_ & He). clear Hstep Hrest Hrun Hlog Hlen IH.
    unfold buffer_of, in_flight in *.
    destruct ev as [| | |[e|]| | |]; cbn [effect is_receive is_emit is_serialize] in *.
    + destruct He as (t & _ & _ & ->). cbn in *. repeat split; lia.
    + destruct He as (Hpc & t & _ & _ & ->). cbn in *. rewrite Hpc.
      repeat split; lia.
    + destruct He as (Hpc & ->). cbn in *. rewrite Hpc.
      repeat split; lia.
    + destruct He as (b & Hpc & ->). cbn in *. rewrite Hpc in *.
      repeat split; lia.
    + destruct He as (b & Hpc & ->). cbn in *. rewrite Hpc.
      repeat split; lia.
    + destruct He as (b & Hpc & ->). cbn in *. rewrite Hpc, length_app.
      rewrite <- !app_assoc. cbn. repeat split; lia.
    + destruct He as (h & ->). cbn in *. repeat split; lia.
    + destruct He as (t & _ & ->). cbn in *. repeat split; lia.
Qed.

(** C6. With the goroutine at the head of its loop: a tick it receives (the
    flush reporting no error) is answered by one snapshot of the registry,
    serialized by [WriteJSONOnce], and one emit call carrying those bytes.
    Along any run, whatever the producers, the ticker and [Close] do in
    between, the emitter's log is the sequence of snapshots serialized, one
    emit call per tick received, the tick in progress excepted. *)
Theorem one_emit_per_tick (w : world) :
  reporter w = Waiting ->
  (forall t, crashed w = None -> ticker w = Some t -> C t = true ->
     exists w',
       runJ [Receive; Serialize; Flush None; EmitCall] w = Some w' /\
       emitted w' = emitted w ++ [WriteJSONOnce (heap w) (registry w)] /\
       reporter w' = Waiting /\ heap w' = heap w /\ registry w' = registry w) /\
  (forall evs w', runJ evs w = Some w' ->
     emitted w' ++ buffer_of w' = emitted w ++ snapshotsJ evs w /\
     count_events is_receive evs
     = (count_events is_emit evs + in_flight w')%nat /\
     length (emitted w') = (length (emitted w) + count_events is_emit evs)%nat).
Proof.
  intros Hpc. split.
  - intros t Hlive Ht HC.
    exists (set_reporter Waiting
              (set_emitted (emitted w ++ [WriteJSONOnce (heap w) (registry w)])
                 (set_ticker (Some (mkTicker (active t) false)) w))).
    split; [|repeat split; reflexivity].
    cbn [run]. unfold step at 1. rewrite Hlive. cbn [action].
    unfold receive, bind, gets. rewrite Hpc, Ht, HC. cbn.
    unfold step. cbn. rewrite Hlive. cbn. rewrite Hlive. cbn.
    rewrite Hlive. reflexivity.
  - intros evs w' Hrun.
    destruct (run_accounting _ _ _ Hrun) as (Hlog & Hcnt & Hlen).
    unfold buffer_of at 2 in Hlog. unfold in_flight at 1 in Hcnt.
    rewrite Hpc in Hlog, Hcnt. cbn in Hlog.
    split; [exact Hlog|]. split; [lia | exact Hlen].
Qed.

End ReportingFacts.

(** ** The reporting loop on a started consumer *)



(** C5 fails on the code: [Close] returns while the goroutine is working on a
    tick, and the emit call of that tick comes after [Close] has returned. *)
Lemma emit_after_Close_returned :
  Close (after [TimerFires; Receive])
  = Some (tt, after [TimerFires; Receive; CallClose]) /\
  reporter (after [TimerFires; Receive; CallClose]) = Ticked /\
  emitted (after [TimerFires; Receive; CallClose]) = [] /\
  run sample_json [Serialize; Flush None; EmitCall]
    (after [TimerFires; Receive; CallClose])
  = Some (after [TimerFires; Receive; CallClose; Serialize; Flush None; EmitCall]) /\
  emitted (after [TimerFires; Receive; CallClose; Serialize; Flush None; EmitCall])
  = [ [] ] /\
  count_events is_emit [Serialize; Flush None; EmitCall] = 1%nat.
Proof. repeat apply conj; vm_compute; reflexivity. Qed.

Lemma Close_bounds_later_emits_witness :
  (Close (after [TimerFires; Receive])
   = Some (tt, after [TimerFires; Receive; CallClose]) /\
   run sample_json [Serialize; Flush None; EmitCall]
     (after [TimerFires; Receive; CallClose])
   = Some (after [TimerFires; Receive; CallClose; Serialize; Flush None; EmitCall])) /\
  emitted (after [TimerFires; Receive; CallClose])
  = emitted (after [TimerFires; Receive]) /\
  count_events is_timer [Serialize; Flush None; EmitCall] = 0%nat /\
  (pending (after [TimerFires; Receive; CallClose]) <= 2)%nat /\
  exists later,
    emitted (after [TimerFires; Receive; CallClose; Serialize; Flush None; EmitCall])
    = emitted (after [TimerFires; Receive; CallClose]) ++ later /\
    (length later
     + pending (after [TimerFires; Receive; CallClose; Serialize; Flush None; EmitCall])
     <= pending (after [TimerFires; Receive; CallClose]))%nat /\
    (pending (after [TimerFires; Receive; CallClose]) = 0%nat ->
     emitted (after [TimerFires; Receive; CallClose; Serialize; Flush None; EmitCall])
     = emitted (after [TimerFires; Receive; CallClose])).
Proof.
  assert (Hc : Close (after [TimerFires; Receive])
               = Some (tt, after [TimerFires; Receive; CallClose]))
    by (vm_compute; reflexivity).
  assert (Hr : run sample_json [Serialize; Flush None; EmitCall]
                 (after [TimerFires; Receive; CallClose])
               = Some (after [TimerFires; Receive; CallClose; Serialize;
                              Flush None; EmitCall]))
    by (vm_compute; reflexivity).
  split; [split; [exact Hc | exact Hr]|].
  exact (Close_bounds_later_emits sample_json _ _ _ _ Hc Hr).
Defined.

Lemma one_emit_per_tick_witness :
  reporter (after [TimerFires]) = Waiting /\
  (forall t, crashed (after [TimerFires]) = None ->
     ticker (after [TimerFires]) = Some t -> C t = true ->
     exists w',
       run sample_json [Receive; Serialize; Flush None; EmitCall] (after [TimerFires])
       = Some w' /\
       emitted w' = emitted (after [TimerFires])
                    ++ [sample_json (heap (after [TimerFires]))
                          (registry (after [TimerFires]))] /\
       reporter w' = Waiting /\ heap w' = heap (after [TimerFires]) /\
       registry w' = registry (after [TimerFires])) /\
  (forall evs w', run sample_json evs (after [TimerFires]) = Some w' ->
     emitted w' ++ buffer_of w'
     = emitted (after [TimerFires]) ++ snapshots sample_json evs (after [TimerFires]) /\
     count_events is_receive evs
     = (count_events is_emit evs + in_flight w')%nat /\
     length (emitted w')
     = (length (emitted (after [TimerFires])) + count_events is_emit evs)%nat).
Proof.
  assert (H : reporter (after [TimerFires]) = Waiting) by (vm_compute; reflexivity).
  split; [exact H|].
  exact (one_emit_per_tick sample_json (after [TimerFires]) H).
Defined.

(** The tick of the witness above, run: seven metrics are registered, so the
    emitter receives one payload of seven bytes. *)
Example one_tick_emits_once :
  emitted (after [TimerFires; Receive; Serialize; Flush None; EmitCall])
  = [ [Byte.x6d; Byte.x6d; Byte.x6d; Byte.x6d; Byte.x6d; Byte.x6d; Byte.x6d] ].
Proof. vm_compute. reflexivity. Qed.

(** ** The constructor *)

(** Two of the constructor's names differ within their fixed prefixes. *)
Ltac names_differ :=
  let H := fresh in intros H; cbv in H; congruence.

(** With a positive reporting interval the constructor does not panic. Its
    seven names are pairwise distinct whatever the consumer is called, so each
    registration creates a metric; it leaves the ticker armed, the goroutine
    at the head of its loop, and every registered name live. *)
Lemma newConsumerMetrics_starts (interval : Z) (consumerName : string) (w0 : world) :
  0 < interval ->
  exists cm w,
    newConsumerMetrics interval consumerName w0 = Some (cm, w) /\
    heap w = heap w0 ++ [metrics.NewTimer; metrics.NewTimer; metrics.NewGauge;
                         metrics.NewCounter; metrics.NewCounter;
                         metrics.NewTimer; metrics.NewTimer] /\
    dom (registry w)
    = {[ "FetchersIdleTime-" +:+ consumerName; "FetchDuration-" +:+ consumerName;
         "NumWorkerManagers-" +:+ consumerName; "WMsActiveWorkers-" +:+ consumerName;
         "WMsPendingTasks-" +:+ consumerName; "WMsBatchDuration-" +:+ consumerName;
         "WMsIdleTime-" +:+ consumerName ]} /\
    size (registry w) = 7%nat /\
    registry w !! ("WMsActiveWorkers-" +:+ consumerName) = Some (ActiveWorkersCounter cm) /\
    ticker w = Some (mkTicker true false) /\ reporter w = Waiting /\
    emitted w = emitted w0 /\ crashed w = crashed w0 /\
    live w.
Proof.
  intros Hpos. unfold newConsumerMetrics, metrics.NewRegistry,
    metrics.NewRegisteredTimer, metrics.NewRegisteredGauge,
    metrics.NewRegisteredCounter, NewTicker, go_reporter.
  apply Z.ltb_lt in Hpos. rewrite Hpos.
  unfold bind at 1. cbn [modify].
  do 7 (unfold bind at 1; rewrite register_fresh;
        [|cbn [registry set_registry set_heap];
          rewrite ?lookup_insert_ne by names_differ; apply lookup_empty]).
  cbn. do 2 eexists. split; [reflexivity|]. cbn.
  split; [rewrite <- !app_assoc; reflexivity|].
  split.
  { rewrite !dom_insert_L, dom_empty_L. apply set_eq. intros x.
    rewrite !elem_of_union, !elem_of_singleton, elem_of_empty. tauto. }
  split.
  { rewrite !map_size_insert_None, map_size_empty; [reflexivity|..];
      rewrite ?lookup_insert_ne by names_differ; apply lookup_empty. }
  split.
  { rewrite !lookup_insert_ne by names_differ. apply lookup_insert_eq. }
  repeat split.
  unfold live. cbn.
  repeat (apply map_Forall_insert_2;
          [apply lookup_lt_is_Some; rewrite ?length_app; cbn; lia|]).
  apply map_Forall_empty.
Qed.

(** * Further properties *)

(** ** What the constructor builds *)

(** The constructor's result, spelled out: seven objects appended to the
    heap in the order of the source, each bound to its name. *)
Lemma newConsumerMetrics_result (interval : Z) (consumerName : string) (w0 : world) :
  0 < interval ->
  exists cm w,
    newConsumerMetrics interval consumerName w0 = Some (cm, w) /\
    cm = mkConsumerMetrics None (length (heap w0)) (length (heap w0) + 1)%nat
           (length (heap w0) + 2)%nat (length (heap w0) + 3)%nat
           (length (heap w0) + 4)%nat (length (heap w0) + 5)%nat
           (length (heap w0) + 6)%nat /\
    heap w = heap w0 ++ [metrics.NewTimer; metrics.NewTimer; metrics.NewGauge;
                         metrics.NewCounter; metrics.NewCounter;
                         metrics.NewTimer; metrics.NewTimer] /\
    registry w
    = <["WMsIdleTime-" +:+ consumerName := wmsIdleTimer cm]>
      (<["WMsBatchDuration-" +:+ consumerName := wmsBatchDurationTimer cm]>
      (<["WMsPendingTasks-" +:+ consumerName := pendingWMsTasksCounter cm]>
      (<["WMsActiveWorkers-" +:+ consumerName := activeWorkersCounter cm]>
      (<["NumWorkerManagers-" +:+ consumerName := numWorkerManagersGauge cm]>
      (<["FetchDuration-" +:+ consumerName := fetchDurationTimer cm]>
      (<["FetchersIdleTime-" +:+ consumerName := fetchersIdleTimer cm]> ∅)))))) /\
    ticker w = Some (mkTicker true false) /\ reporter w = Waiting /\
    emitted w = emitted w0 /\ crashed w = crashed w0.
Proof.
  intros Hpos. unfold newConsumerMetrics, metrics.NewRegistry,
    metrics.NewRegisteredTimer, metrics.NewRegisteredGauge,
    metrics.NewRegisteredCounter, NewTicker, go_reporter.
  apply Z.ltb_lt in Hpos. rewrite Hpos.
  unfold bind at 1. cbn [modify].
  do 7 (unfold bind at 1; rewrite register_fresh;
        [|cbn [registry set_registry set_heap];
          rewrite ?lookup_insert_ne by names_differ; apply lookup_empty]).
  cbn. do 2 eexists. split; [reflexivity|]. cbn.
  split; [rewrite !length_app; cbn [length]; f_equal; lia|].
  split; [rewrite <- !app_assoc; reflexivity|].
  repeat split.
Qed.

Lemma newConsumerMetrics_registered (interval : Z) (consumerName : string) (w0 : world) :
  0 < interval ->
  exists cm w,
    newConsumerMetrics interval consumerName w0 = Some (cm, w) /\
    seven_metrics consumerName cm w /\
    size (registry w) = 7%nat /\
    live w /\
    NoDup [FetchersIdleTimer cm; FetchDurationTimer cm; NumWorkerManagersGauge cm;
           ActiveWorkersCounter cm; PendingWMsTasksCounter cm;
           WMsBatchDurationTimer cm; WMsIdleTimer cm] /\
    (forall l m, heap w0 !! l = Some m -> heap w !! l = Some m) /\
    ticker w = Some (mkTicker true false) /\ reporter w = Waiting /\
    emitted w = emitted w0 /\ crashed w = crashed w0.
Proof.
  intros Hpos.
  destruct (newConsumerMetrics_result interval consumerName w0 Hpos)
    as (cm & w & E & -> & Hh & Hr & Ht & Hp & He & Hc).
  cbn in Hr. eexists _, w. split; [exact E|].
  assert (Hobj : forall k m,
             [metrics.NewTimer; metrics.NewTimer; metrics.NewGauge;
              metrics.NewCounter; metrics.NewCounter;
              metrics.NewTimer; metrics.NewTimer] !! k = Some m ->
             heap w !! (length (heap w0) + k)%nat = Some m).
  { intros k m Hk. rewrite Hh, lookup_app_r by lia.
    replace (length (heap w0) + k - length (heap w0))%nat with k by lia.
    exact Hk. }
  split.
  { unfold seven_metrics, registered. cbn. rewrite Hr.
    repeat split;
      try (rewrite ?lookup_insert_ne by names_differ; apply lookup_insert_eq);
      eexists; (split; [apply Hobj; reflexivity | reflexivity]) ||
      (rewrite <- (Nat.add_0_r (length (heap w0))) at 1;
       split; [apply Hobj; reflexivity | reflexivity]). }
  split.
  { rewrite Hr, !map_size_insert_None, map_size_empty; [reflexivity|..];
      rewrite ?lookup_insert_ne by names_differ; apply lookup_empty. }
  split.
  { unfold live. rewrite Hr.
    repeat (apply map_Forall_insert_2;
            [apply lookup_lt_is_Some; rewrite Hh, length_app; cbn; lia|]).
    apply map_Forall_empty. }
  split.
  { cbn. repeat (apply NoDup_cons; split;
                 [rewrite ?elem_of_cons, elem_of_nil; lia|]).
    apply NoDup_nil_2. }
  split.
  { intros l m Hl. rewrite Hh. apply lookup_app_l_Some, Hl. }
  repeat split; assumption.
Qed.

(** X1. With a positive reporting interval the constructor succeeds from any
    state. Each of the seven accessors returns the handle bound to its name
    ("FetchersIdleTime-<consumer>" and so on), which refers to a metric of the
    accessor's kind; the seven handles are distinct, the objects that existed
    before are kept, [numFetchRoutinesCounter] is left nil, the ticker is
    armed and the goroutine waits for its first tick. *)
Theorem newConsumerMetrics_handles (interval : Z) (consumerName : string) (w0 : world) :
  0 < interval ->
  exists cm w,
    newConsumerMetrics interval consumerName w0 = Some (cm, w) /\
    numFetchRoutinesCounter cm = None /\
    seven_metrics consumerName cm w /\
    size (registry w) = 7%nat /\
    NoDup [FetchersIdleTimer cm; FetchDurationTimer cm; NumWorkerManagersGauge cm;
           ActiveWorkersCounter cm; PendingWMsTasksCounter cm;
           WMsBatchDurationTimer cm; WMsIdleTimer cm] /\
    (forall l m, heap w0 !! l = Some m -> heap w !! l = Some m) /\
    ticker w = Some (mkTicker true false) /\ reporter w = Waiting /\
    emitted w = emitted w0.
Proof.
  intros Hpos.
  destruct (newConsumerMetrics_result interval consumerName w0 Hpos)
    as (cm0 & w1 & E0 & Hcm & _).
  destruct (newConsumerMetrics_registered interval consumerName w0 Hpos)
    as (cm & w & E & H7 & Hsize & _ & Hnd & Hold & Ht & Hp & He & _).
  rewrite E in E0. injection E0 as E0 _. rewrite <- E0 in Hcm.
  exists cm, w. split; [exact E|]. split; [rewrite Hcm; reflexivity|].
  split; [exact H7|]. split; [exact Hsize|]. split; [exact Hnd|].
  split; [exact Hold|]. split; [exact Ht|]. split; [exact Hp | exact He].
Qed.

Lemma newConsumerMetrics_panics (interval : Z) (consumerName : string) (w0 : world) :
  interval <= 0 -> newConsumerMetrics interval consumerName w0 = None.
Proof.
  intros Hneg. unfold newConsumerMetrics, metrics.NewRegistry,
    metrics.NewRegisteredTimer, metrics.NewRegisteredGauge,
    metrics.NewRegisteredCounter, NewTicker, go_reporter.
  apply Z.ltb_ge in Hneg. rewrite Hneg.
  unfold bind at 1. cbn [modify].
  do 7 (unfold bind at 1; rewrite register_fresh;
        [|cbn [registry set_registry set_heap];
          rewrite ?lookup_insert_ne by names_differ; apply lookup_empty]).
  reflexivity.
Qed.

(** X2. The constructor succeeds exactly when the emitter's reporting
    interval is positive: with a zero or negative interval [time.NewTicker]
    panics and no consumerMetrics is returned. *)
Theorem newConsumerMetrics_needs_interval
    (interval : Z) (consumerName : string) (w0 : world) :
  is_Some (newConsumerMetrics interval consumerName w0) <-> 0 < interval.
Proof.
  split.
  - intros [r Hr]. destruct (Z.ltb_spec 0 interval) as [H|H]; [exact H|].
    rewrite (newConsumerMetrics_panics interval consumerName w0 H) in Hr.
    discriminate Hr.
  - intros H.
    destruct (newConsumerMetrics_result interval consumerName w0 H)
      as (cm & w & E & _).
    rewrite E. eauto.
Qed.

Lemma registered_has_keys (w : world) (name : string) (l : loc) (k : kind) :
  registered w name l k ->
  has_keys (statsAt (heap w) <$> registry w) name k.
Proof.
  intros (Hr & m & Hh & Hk). exists (statsOf m). split.
  - rewrite lookup_fmap, Hr. cbn. unfold statsAt. rewrite Hh. reflexivity.
  - rewrite <- Hk. apply statsOf_keys.
Qed.

(** X3. The snapshot of a newly constructed consumer has exactly seven
    entries: the four timers with the eleven timer keys, the gauge with
    "value", the two counters with "count". *)
Theorem fresh_consumer_snapshot (interval : Z) (consumerName : string) (w0 : world) :
  0 < interval ->
  exists cm w snapshot,
    newConsumerMetrics interval consumerName w0 = Some (cm, w) /\
    Stats w = Some (snapshot, w) /\
    size snapshot = 7%nat /\
    has_keys snapshot ("FetchersIdleTime-" +:+ consumerName) KTimer /\
    has_keys snapshot ("FetchDuration-" +:+ consumerName) KTimer /\
    has_keys snapshot ("NumWorkerManagers-" +:+ consumerName) KGauge /\
    has_keys snapshot ("WMsActiveWorkers-" +:+ consumerName) KCounter /\
    has_keys snapshot ("WMsPendingTasks-" +:+ consumerName) KCounter /\
    has_keys snapshot ("WMsBatchDuration-" +:+ consumerName) KTimer /\
    has_keys snapshot ("WMsIdleTime-" +:+ consumerName) KTimer.
Proof.
  intros Hpos.
  destruct (newConsumerMetrics_registered interval consumerName w0 Hpos)
    as (cm & w & E & H7 & Hsize & Hlive & _).
  destruct H7 as (R1 & R2 & R3 & R4 & R5 & R6 & R7).
  exists cm, w, (statsAt (heap w) <$> registry w).
  split; [exact E|]. split; [apply Stats_ok, Hlive|].
  split; [rewrite map_size_fmap; exact Hsize|].
  repeat split; eapply registered_has_keys; eassumption.
Qed.

Lemma statsOf_reports (m : metric) : reports m (statsOf m).
Proof.
  destruct m; cbn [reports statsOf]; try reflexivity;
    repeat split;
    (rewrite ?lookup_insert_ne by discriminate); apply lookup_insert_eq.
Qed.

(** X5. The values of the snapshot. For every registered metric [Stats]
    reports, under the metric's name, the results of its accessors: [Count],
    [Value], [Max], [Min] and [Sum] converted from [int64] to [float64], the
    means, deviations, variances and rates as they are. *)
Theorem Stats_values (w : world) (name : string) (l : loc) (m : metric) :
  live w -> registry w !! name = Some l -> heap w !! l = Some m ->
  exists snapshot stats,
    Stats w = Some (snapshot, w) /\
    snapshot !! name = Some stats /\
    reports m stats.
Proof.
  intros Hlive Hr Hh. exists (statsAt (heap w) <$> registry w), (statsOf m).
  split; [apply Stats_ok, Hlive|]. split; [|apply statsOf_reports].
  rewrite lookup_fmap, Hr. cbn. unfold statsAt. rewrite Hh. reflexivity.
Qed.

(** ** Writes and the snapshot *)

Lemma statsAt_insert (h : list metric) (l l' : loc) (m m' : metric) :
  h !! l = Some m ->
  statsAt (<[l := m']> h) l' = if decide (l' = l) then statsOf m' else statsAt h l'.
Proof.
  intros H. unfold statsAt. case_decide as Hl.
  - subst l'. rewrite list_lookup_insert_eq by (eapply lookup_lt_Some, H).
    reflexivity.
  - rewrite list_lookup_insert_ne by congruence. reflexivity.
Qed.

Lemma live_set_heap (w : world) (h : list metric) :
  length h = length (heap w) -> live w -> live (set_heap h w).
Proof.
  intros Hlen Hlive n l Hr. cbn in *. apply lookup_lt_is_Some. rewrite Hlen.
  apply lookup_lt_is_Some. exact (Hlive n l Hr).
Qed.

(** The snapshots before and after one in-place write. *)
Lemma Stats_after_write (w : world) (l : loc) (m m' : metric) :
  live w -> heap w !! l = Some m ->
  Stats (set_heap (<[l := m']> (heap w)) w)
  = Some ((fun l' => if decide (l' = l) then statsOf m' else statsAt (heap w) l')
            <$> registry w,
          set_heap (<[l := m']> (heap w)) w).
Proof.
  intros Hlive Hh. rewrite Stats_ok by (apply live_set_heap;
    [apply length_insert | exact Hlive]).
  cbn [heap registry set_heap]. do 2 f_equal.
  apply map_fmap_ext. intros n l' _. apply (statsAt_insert _ _ _ m), Hh.
Qed.

(** X6. A write through a handle shows in the next snapshot under every name
    bound to that handle, and nowhere else: the other entries, and the set of
    names, are the same as before the write. *)
Theorem write_shows_in_snapshot
    (w w' : world) (l : loc) (m : metric) (f : metric -> metric) :
  live w -> heap w !! l = Some m -> mutate l f w = Some (tt, w') ->
  exists before after,
    Stats w = Some (before, w) /\
    Stats w' = Some (after, w') /\
    dom after = dom before /\
    forall name l', registry w !! name = Some l' ->
      (l' = l -> exists stats, after !! name = Some stats /\ reports (f m) stats) /\
      (l' <> l -> after !! name = before !! name).
Proof.
  intros Hlive Hh Hmut. rewrite (mutate_ok w l m f Hh) in Hmut.
  injection Hmut as <-.
  eexists _, _. split; [apply Stats_ok, Hlive|].
  split; [apply (Stats_after_write w l m (f m) Hlive Hh)|].
  split; [rewrite !dom_fmap_L; reflexivity|].
  intros name l' Hr. rewrite !lookup_fmap, Hr. cbn. split; intros Hl.
  - exists (statsOf (f m)). rewrite decide_True by exact Hl.
    split; [reflexivity | apply statsOf_reports].
  - rewrite decide_False by exact Hl. reflexivity.
Qed.

(** In a newly constructed consumer no two names share a handle. *)
Lemma constructed_registry_injective
    (interval : Z) (consumerName : string) (w0 w : world) (cm : consumerMetrics)
    (n1 n2 : string) (l : loc) :
  0 < interval ->
  newConsumerMetrics interval consumerName w0 = Some (cm, w) ->
  registry w !! n1 = Some l -> registry w !! n2 = Some l -> n1 = n2.
Proof.
  intros Hpos E H1 H2.
  destruct (newConsumerMetrics_result interval consumerName w0 Hpos)
    as (cm' & w1 & E' & -> & _ & Hr & _).
  rewrite E in E'. injection E' as _ <-. cbn in Hr. rewrite Hr in H1, H2.
  repeat (apply lookup_insert_Some in H1 as [[<- <-]|[_ H1]]);
    try (rewrite lookup_empty in H1; discriminate H1).
  all: repeat (apply lookup_insert_Some in H2 as [[<- Heq]|[_ H2]]);
    try (rewrite lookup_empty in H2; discriminate H2);
    try reflexivity; exfalso; lia.
Qed.

(** On a newly constructed consumer, overwriting the object behind a handle
    replaces the one snapshot entry of the handle's name. *)
Lemma constructed_write
    (interval : Z) (consumerName : string) (w0 w : world) (cm : consumerMetrics)
    (name : string) (l : loc) (m m' : metric) :
  0 < interval ->
  newConsumerMetrics interval consumerName w0 = Some (cm, w) ->
  live w -> registry w !! name = Some l -> heap w !! l = Some m ->
  Stats (set_heap (<[l := m']> (heap w)) w)
  = Some (<[name := statsOf m']> (statsAt (heap w) <$> registry w),
          set_heap (<[l := m']> (heap w)) w).
Proof.
  intros Hpos E Hlive Hr Hh. rewrite (Stats_after_write w l m m' Hlive Hh).
  do 2 f_equal. apply map_eq. intros n. rewrite lookup_fmap.
  destruct (decide (n = name)) as [->|Hn].
  - rewrite lookup_insert_eq, Hr. cbn. rewrite decide_True; reflexivity.
  - rewrite lookup_insert_ne, lookup_fmap by congruence.
    destruct (registry w !! n) as [l'|] eqn:Hl'; [|reflexivity]. cbn.
    rewrite decide_False; [reflexivity|]. intros ->. apply Hn.
    exact (constructed_registry_injective _ _ _ _ _ _ _ _ Hpos E Hl' Hr).
Qed.

(** X7. End to end on a constructed consumer: setting the worker-managers
    gauge to [v] turns the snapshot into the one before with the entry
    "NumWorkerManagers-<consumer>" replaced by {"value": float64(v)};
    adding [d] to the active-workers counter, new and so at zero, replaces
    the entry "WMsActiveWorkers-<consumer>" by {"count": float64(d)} (the
    [int64] sum). Every other entry is as before. *)
Theorem accessor_writes_end_to_end
    (interval : Z) (consumerName : string) (w0 : world) :
  0 < interval ->
  exists cm w before,
    newConsumerMetrics interval consumerName w0 = Some (cm, w) /\
    Stats w = Some (before, w) /\
    (forall v, exists w',
        Gauge.Update (NumWorkerManagersGauge cm) v w = Some (tt, w') /\
        Stats w'
        = Some (<["NumWorkerManagers-" +:+ consumerName := {[ "value" := float64 v ]}]>
                  before, w')) /\
    (forall d, exists w',
        Counter.Inc (ActiveWorkersCounter cm) d w = Some (tt, w') /\
        Stats w'
        = Some (<["WMsActiveWorkers-" +:+ consumerName
                  := {[ "count" := float64 (wrap64 d) ]}]> before, w')).
Proof.
  intros Hpos.
  destruct (newConsumerMetrics_result interval consumerName w0 Hpos)
    as (cm0 & w1 & E0 & Hcm & Hheap & _).
  destruct (newConsumerMetrics_registered interval consumerName w0 Hpos)
    as (cm & w & E & H7 & _ & Hlive & _).
  rewrite E in E0. injection E0 as <- <-.
  destruct H7 as (_ & _ & (Rg & mg & Hg & _) & (Rc & mc & Hc & _) & _).
  assert (Hg0 : heap w !! NumWorkerManagersGauge cm = Some (StandardGauge 0)).
  { rewrite Hcm, Hheap. cbn. rewrite lookup_app_r by lia.
    replace (length (heap w0) + 2 - length (heap w0))%nat with 2%nat by lia.
    reflexivity. }
  assert (Hc0 : heap w !! ActiveWorkersCounter cm = Some (StandardCounter 0)).
  { rewrite Hcm, Hheap. cbn. rewrite lookup_app_r by lia.
    replace (length (heap w0) + 3 - length (heap w0))%nat with 3%nat by lia.
    reflexivity. }
  exists cm, w, (statsAt (heap w) <$> registry w).
  split; [exact E|]. split; [apply Stats_ok, Hlive|]. split.
  - intros v. eexists. split; [apply (Update_ok w _ 0 v Hg0)|].
    apply (constructed_write interval consumerName w0 w cm _ _ _
             (StandardGauge v) Hpos E Hlive Rg Hg0).
  - intros d. eexists. split; [apply (Inc_ok w _ 0 d Hc0)|].
    apply (constructed_write interval consumerName w0 w cm _ _ _
             (StandardCounter (wrap64 (0 + d))) Hpos E Hlive Rc Hc0).
Qed.

(** ** The process as a whole *)

Lemma mutation_keeps_length (mu : mutation) (w w' : world) (u : unit) :
  apply_mutation mu w = Some (u, w') ->
  exists h, w' = set_heap h w /\ length h = length (heap w).
Proof.
  destruct mu; cbn [apply_mutation];
    unfold Counter.Inc, Counter.Dec, Counter.Count, Gauge.Update, Gauge.Value,
      mutate, bind, load, store, ret, panic;
    intros H; repeat case_match; simplify_eq;
    (eexists; split; [reflexivity | cbn; apply length_insert]).
Qed.

Section ProcessFacts.

Variable WriteJSONOnce : list metric -> gmap string loc -> payload.

Local Abbreviation stepW := (step WriteJSONOnce).
Local Abbreviation runW := (run WriteJSONOnce).
Local Abbreviation snapshotsW := (snapshots WriteJSONOnce).

(** What a step can and cannot touch. *)
Lemma step_shape (ev : event) (w w' : world) :
  stepW ev w = Some w' ->
  length (heap w') = length (heap w) /\
  (is_produce ev = false -> heap w' = heap w) /\
  (is_close ev = false -> registry w' = registry w) /\
  (registry w' = registry w \/ registry w' = ∅).
Proof.
  intros H. destruct (is_produce ev) eqn:Hp.
  - destruct ev; try discriminate Hp. unfold step in H.
    destruct (crashed w); [discriminate|]. cbn [action] in H.
    destruct (apply_mutation mu w) as [[u w1]|] eqn:Hm; [|discriminate].
    injection H as <-.
    destruct (mutation_keeps_length _ _ _ _ Hm) as (h & -> & Hlen).
    cbn. repeat split; eauto. discriminate.
  - destruct (step_inv WriteJSONOnce _ _ _ H) as (_ & He).
    destruct ev as [| | |[e|]| | |]; cbn [effect] in He; try discriminate Hp.
    + destruct He as (t & _ & _ & ->). cbn. repeat split; eauto.
    + destruct He as (_ & t & _ & _ & ->). cbn. repeat split; eauto.
    + destruct He as (_ & ->). cbn. repeat split; eauto.
    + destruct He as (b & _ & ->). cbn. repeat split; eauto.
    + destruct He as (b & _ & ->). cbn. repeat split; eauto.
    + destruct He as (b & _ & ->). cbn. repeat split; eauto.
    + destruct He as (t & _ & ->). cbn. repeat split; eauto. discriminate.
Qed.

(** X10. Who touches what. Along any run no metric object is created or
    dropped; the objects change only through producers' writes (the goroutine,
    the ticker and [Close] never write to a metric); the registry changes only
    through [Close], which empties it. *)
Theorem run_touches (evs : list event) (w w' : world) :
  runW evs w = Some w' ->
  length (heap w') = length (heap w) /\
  (count_events is_produce evs = 0%nat -> heap w' = heap w) /\
  (count_events is_close evs = 0%nat -> registry w' = registry w) /\
  (registry w' = registry w \/ registry w' = ∅).
Proof.
  revert w. induction evs as [|ev evs IH]; intros w Hrun.
  - injection Hrun as <-. repeat split; eauto.
  - destruct (run_cons WriteJSONOnce _ _ _ _ Hrun) as (w1 & Hstep & Hrest).
    destruct (step_shape _ _ _ Hstep) as (L1 & P1 & C1 & R1).
    destruct (IH _ Hrest) as (L2 & P2 & C2 & R2).
    rewrite !count_events_cons.
    split; [congruence|]. split; [|split].
    + intros H0. destruct (is_produce ev); [discriminate H0|].
      rewrite P2 by exact H0. apply P1. reflexivity.
    + intros H0. destruct (is_close ev); [discriminate H0|].
      rewrite C2 by exact H0. apply C1. reflexivity.
    + destruct R2 as [R2|R2]; [|right; exact R2].
      rewrite R2. exact R1.
Qed.

Lemma run_keeps_live (evs : list event) (w w' : world) :
  live w -> runW evs w = Some w' ->
  live w' /\ (registry w' = registry w \/ registry w' = ∅).
Proof.
  revert w. induction evs as [|ev evs IH]; intros w Hlive Hrun.
  - injection Hrun as <-. split; [exact Hlive | left; reflexivity].
  - destruct (run_cons WriteJSONOnce _ _ _ _ Hrun) as (w1 & Hstep & Hrest).
    destruct (step_shape _ _ _ Hstep) as (L1 & _ & _ & R1).
    assert (Hlive1 : live w1).
    { intros n l Hr. apply lookup_lt_is_Some. rewrite L1.
      apply lookup_lt_is_Some.
      destruct R1 as [R1|R1]; rewrite R1 in Hr;
        [exact (Hlive n l Hr) | rewrite lookup_empty in Hr; discriminate Hr]. }
    destruct (IH _ Hlive1 Hrest) as (Hlive' & R2). split; [exact Hlive'|].
    destruct R2 as [R2|R2]; [|right; exact R2]. rewrite R2. exact R1.
Qed.

(** X8. [Stats] cannot panic on a running consumer: in every state reached
    from the constructor, whatever the goroutine, the ticker, the producers
    and [Close] have done, every registered name refers to a live object and
    [Stats] returns a snapshot, either of the seven names or, after [Close],
    empty. *)
Theorem Stats_never_panics
    (interval : Z) (consumerName : string) (w0 w w' : world)
    (cm : consumerMetrics) (evs : list event) :
  newConsumerMetrics interval consumerName w0 = Some (cm, w) ->
  runW evs w = Some w' ->
  live w' /\
  exists snapshot,
    Stats w' = Some (snapshot, w') /\
    (dom snapshot = dom (registry w) \/ snapshot = ∅).
Proof.
  intros E Hrun.
  assert (Hpos : 0 < interval).
  { destruct (Z.ltb_spec 0 interval) as [H|H]; [exact H|].
    rewrite (newConsumerMetrics_panics interval consumerName w0 H) in E.
    discriminate E. }
  destruct (newConsumerMetrics_registered interval consumerName w0 Hpos)
    as (cm1 & w1 & E1 & _ & _ & Hlive & _).
  rewrite E in E1. injection E1 as _ <-.
  destruct (run_keeps_live _ _ _ Hlive Hrun) as (Hlive' & R).
  split; [exact Hlive'|]. exists (statsAt (heap w') <$> registry w').
  split; [apply Stats_ok, Hlive'|].
  destruct R as [R|R]; rewrite R.
  - left. apply dom_fmap_L.
  - right. apply fmap_empty.
Qed.

(** A step emits at most what was pending, and only the ticker adds to it. *)
Lemma step_budget (ev : event) (w w' : world) :
  stepW ev w = Some w' ->
  exists more, emitted w' = emitted w ++ more /\
               (length more + pending w'
                <= pending w + (if is_timer ev then 1 else 0))%nat.
Proof.
  intros H. destruct (step_inv WriteJSONOnce _ _ _ H) as (_ & He).
  unfold pending, in_flight.
  destruct ev as [| | |[e|]| | |]; cbn [effect is_timer] in He.
  - destruct He as (t & Ht & _ & ->). cbn. rewrite Ht.
    exists []. rewrite app_nil_r. split; [reflexivity|].
    destruct (reporter w), (C t); cbn; lia.
  - destruct He as (Hpc & t & Ht & HC & ->). cbn. rewrite Hpc, Ht, HC.
    exists []. rewrite app_nil_r. split; [reflexivity | cbn; lia].
  - destruct He as (Hpc & ->). cbn. rewrite Hpc.
    exists []. rewrite app_nil_r. split; [reflexivity | cbn; lia].
  - destruct He as (b & Hpc & ->). cbn. rewrite Hpc.
    exists []. rewrite app_nil_r. split; [reflexivity | cbn; lia].
  - destruct He as (b & Hpc & ->). cbn. rewrite Hpc.
    exists []. rewrite app_nil_r. split; [reflexivity | cbn; lia].
  - destruct He as (b & Hpc & ->). cbn. rewrite Hpc.
    exists [b]. split; [reflexivity | cbn; lia].
  - destruct He as (h & ->). cbn.
    exists []. rewrite app_nil_r. split; [reflexivity | cbn; lia].
  - destruct He as (t & Ht & ->). cbn. rewrite Ht.
    exists []. rewrite app_nil_r. split; [reflexivity | cbn; lia].
Qed.

Lemma run_budget (evs : list event) :
  forall w w', runW evs w = Some w' ->
  exists later, emitted w' = emitted w ++ later /\
                (length later + pending w'
                 <= pending w + count_events is_timer evs)%nat.
Proof.
  induction evs as [|ev evs IH]; intros w w' Hrun.
  - injection Hrun as <-. exists []. rewrite app_nil_r.
    split; [reflexivity | cbn; lia].
  - destruct (run_cons WriteJSONOnce _ _ _ _ Hrun) as (w1 & Hstep & Hrest).
    destruct (step_budget _ _ _ Hstep) as (more & Hm & Hle).
    destruct (IH _ _ Hrest) as (later & Hl & Hle').
    exists (more ++ later). rewrite Hl, Hm, app_assoc, length_app.
    split; [reflexivity|]. rewrite count_events_cons.
    destruct (is_timer ev); lia.
Qed.

(** X9. The emitter is never called more often than the ticker fired. From
    construction on, the emitter's log only grows at its end, and the emit
    calls made so far, together with the ticks still pending, number at most
    the firings of the ticker. *)
Theorem emits_bounded_by_ticks
    (interval : Z) (consumerName : string) (w0 w w' : world)
    (cm : consumerMetrics) (evs : list event) :
  newConsumerMetrics interval consumerName w0 = Some (cm, w) ->
  runW evs w = Some w' ->
  exists later,
    emitted w' = emitted w0 ++ later /\
    (length later + pending w' <= count_events is_timer evs)%nat.
Proof.
  intros E Hrun.
  assert (Hpos : 0 < interval).
  { destruct (Z.ltb_spec 0 interval) as [H|H]; [exact H|].
    rewrite (newConsumerMetrics_panics interval consumerName w0 H) in E.
    discriminate E. }
  destruct (newConsumerMetrics_result interval consumerName w0 Hpos)
    as (cm1 & w1 & E1 & _ & _ & _ & Ht & Hp & He & _).
  rewrite E in E1. injection E1 as _ <-.
  destruct (run_budget _ _ _ Hrun) as (later & Hl & Hle).
  exists later. rewrite <- He. split; [exact Hl|].
  unfold pending at 2, in_flight in Hle. rewrite Hp, Ht in Hle. cbn in Hle.
  exact Hle.
Qed.



End ProcessFacts.

(** ** The further properties on the sample worlds *)

Lemma start_c : newConsumerMetrics sample_interval "c" boot = Some (started_cm, after []).
Proof. vm_compute. reflexivity. Qed.

Lemma sample_interval_positive : 0 < sample_interval.
Proof. reflexivity. Qed.

Lemma newConsumerMetrics_handles_witness :
  0 < sample_interval /\
  exists cm w,
    newConsumerMetrics sample_interval "c" boot = Some (cm, w) /\
    numFetchRoutinesCounter cm = None /\
    seven_metrics "c" cm w /\
    size (registry w) = 7%nat.
Proof.
  split; [exact sample_interval_positive|].
  destruct (newConsumerMetrics_handles sample_interval "c" boot
              sample_interval_positive)
    as (cm & w & E & Hnil & H7 & Hsize & _).
  exists cm, w. split; [exact E|]. split; [exact Hnil|].
  split; [exact H7 | exact Hsize].
Defined.

Lemma fresh_consumer_snapshot_witness :
  0 < sample_interval /\
  exists cm w snapshot,
    newConsumerMetrics sample_interval "c" boot = Some (cm, w) /\
    Stats w = Some (snapshot, w) /\
    size snapshot = 7%nat /\
    has_keys snapshot "NumWorkerManagers-c" KGauge.
Proof.
  split; [exact sample_interval_positive|].
  destruct (fresh_consumer_snapshot sample_interval "c" boot
              sample_interval_positive)
    as (cm & w & snap & E & Hs & Hsize & _ & _ & Hg & _).
  exists cm, w, snap. split; [exact E|]. split; [exact Hs|].
  split; [exact Hsize | exact Hg].
Defined.

Lemma Stats_any_order_witness :
  (live sample_world /\
   reverse (map_to_list (registry sample_world))
   ≡ₚ map_to_list (registry sample_world)) /\
  metrics.visitAll statsVisit (reverse (map_to_list (registry sample_world)))
    ∅ sample_world
  = Some (statsAt (heap sample_world) <$> registry sample_world, sample_world).
Proof.
  split; [split; [exact sample_world_live | apply reverse_Permutation]|].
  exact (Stats_any_order sample_world _ sample_world_live
           (reverse_Permutation _)).
Defined.

Lemma Stats_values_witness :
  (live sample_world /\
   registry sample_world !! "t" = Some 4%nat /\
   heap sample_world !! 4%nat = Some (StandardTimer sample_histogram sample_meter)) /\
  exists snapshot stats,
    Stats sample_world = Some (snapshot, sample_world) /\
    snapshot !! "t" = Some stats /\
    stats !! "count" = Some 3%float /\
    stats !! "mean" = Some 4%float /\
    stats !! "rate15" = Some 0.125%float.
Proof.
  assert (Hr : registry sample_world !! "t" = Some 4%nat) by (vm_compute; reflexivity).
  assert (Hh : heap sample_world !! 4%nat
               = Some (StandardTimer sample_histogram sample_meter)) by reflexivity.
  split; [split; [exact sample_world_live | split; [exact Hr | exact Hh]]|].
  destruct (Stats_values sample_world "t" 4%nat _ sample_world_live Hr Hh)
    as (snap & stats & Hs & Hl & Hrep).
  exists snap, stats. split; [exact Hs|]. split; [exact Hl|].
  destruct Hrep as (Hc & _ & _ & Hm & _ & _ & H15 & _).
  split; [exact Hc|]. split; [exact Hm | exact H15].
Defined.

Lemma write_shows_in_snapshot_witness :
  (live sample_world /\
   heap sample_world !! 0%nat = Some (StandardCounter 5) /\
   mutate 0%nat (fun _ => StandardCounter 6) sample_world
   = Some (tt, sample_world_written)) /\
  exists before after,
    Stats sample_world = Some (before, sample_world) /\
    Stats sample_world_written = Some (after, sample_world_written) /\
    dom after = dom before.
Proof.
  assert (Hh : heap sample_world !! 0%nat = Some (StandardCounter 5)) by reflexivity.
  assert (Hm : mutate 0%nat (fun _ => StandardCounter 6) sample_world
               = Some (tt, sample_world_written)) by reflexivity.
  split; [split; [exact sample_world_live | split; [exact Hh | exact Hm]]|].
  destruct (write_shows_in_snapshot sample_world sample_world_written 0%nat _ _
              sample_world_live Hh Hm)
    as (before & after & Hb & Ha & Hd & _).
  exists before, after. split; [exact Hb|]. split; [exact Ha | exact Hd].
Defined.

Lemma accessor_writes_end_to_end_witness :
  0 < sample_interval /\
  exists cm w before,
    newConsumerMetrics sample_interval "c" boot = Some (cm, w) /\
    Stats w = Some (before, w) /\
    exists w',
      Gauge.Update (NumWorkerManagersGauge cm) 42 w = Some (tt, w') /\
      Stats w'
      = Some (<["NumWorkerManagers-c" := {[ "value" := float64 42 ]}]> before, w').
Proof.
  split; [exact sample_interval_positive|].
  destruct (accessor_writes_end_to_end sample_interval "c" boot
              sample_interval_positive)
    as (cm & w & before & E & Hs & Hg & _).
  exists cm, w, before. split; [exact E|]. split; [exact Hs|]. exact (Hg 42).
Defined.

Lemma Stats_never_panics_witness :
  (newConsumerMetrics sample_interval "c" boot = Some (started_cm, after []) /\
   run sample_json [TimerFires; Receive; Produce (CounterInc 3%nat 1); CallClose]
     (after [])
   = Some (after [TimerFires; Receive; Produce (CounterInc 3%nat 1); CallClose])) /\
  live (after [TimerFires; Receive; Produce (CounterInc 3%nat 1); CallClose]).
Proof.
  assert (Hrun : run sample_json
                   [TimerFires; Receive; Produce (CounterInc 3%nat 1); CallClose]
                   (after [])
                 = Some (after [TimerFires; Receive;
                                Produce (CounterInc 3%nat 1); CallClose]))
    by (vm_compute; reflexivity).
  split; [split; [exact start_c | exact Hrun]|].
  exact (proj1 (Stats_never_panics sample_json _ _ _ _ _ _ _ start_c Hrun)).
Defined.

Lemma emits_bounded_by_ticks_witness :
  (newConsumerMetrics sample_interval "c" boot = Some (started_cm, after []) /\
   run sample_json [TimerFires; Receive; TimerFires; TimerFires; Serialize;
                    Flush None; EmitCall] (after [])
   = Some (after [TimerFires; Receive; TimerFires; TimerFires; Serialize;
                  Flush None; EmitCall])) /\
  exists later,
    emitted (after [TimerFires; Receive; TimerFires; TimerFires; Serialize;
                    Flush None; EmitCall])
    = emitted boot ++ later /\
    (length later
     + pending (after [TimerFires; Receive; TimerFires; TimerFires; Serialize;
                       Flush None; EmitCall])
     <= count_events is_timer [TimerFires; Receive; TimerFires; TimerFires;
                               Serialize; Flush None; EmitCall])%nat.
Proof.
  assert (Hrun : run sample_json [TimerFires; Receive; TimerFires; TimerFires;
                                  Serialize; Flush None; EmitCall] (after [])
                 = Some (after [TimerFires; Receive; TimerFires; TimerFires;
                                Serialize; Flush None; EmitCall]))
    by (vm_compute; reflexivity).
  split; [split; [exact start_c | exact Hrun]|].
  exact (emits_bounded_by_ticks sample_json _ _ _ _ _ _ _ start_c Hrun).
Defined.

Lemma run_touches_witness :
  run sample_json [TimerFires; Receive; Serialize; Flush None; EmitCall] (after [])
  = Some (after [TimerFires; Receive; Serialize; Flush None; EmitCall]) /\
  heap (after [TimerFires; Receive; Serialize; Flush None; EmitCall])
  = heap (after []) /\
  registry (after [TimerFires; Receive; Serialize; Flush None; EmitCall])
  = registry (after []).
Proof.
  assert (Hrun : run sample_json [TimerFires; Receive; Serialize; Flush None; EmitCall]
                   (after [])
                 = Some (after [TimerFires; Receive; Serialize; Flush None; EmitCall]))
    by (vm_compute; reflexivity).
  split; [exact Hrun|].
  destruct (run_touches sample_json _ _ _ Hrun) as (_ & Hh & Hr & _).
  split; [apply Hh | apply Hr]; reflexivity.
Defined.

